(** * AsyncJob: the asynchronous remote-job lifecycle of
      source_facebook_marketing/streams/async_job.py

    A shallow embedding of class [AsyncJob] and of the pieces of its
    environment the methods talk to (the clock, the remote service, the
    logger and the store of SDK objects), followed by the properties of
    the job state machine. *)

From Stdlib Require Import ZArith Lia.
From stdpp Require Import base option list gmap strings fin_maps.

Open Scope Z_scope.
Open Scope string_scope.

(** ** Python values and SDK objects *)

(** The values the job reads out of its mappings: strings (job ids,
    statuses, time ranges) and integers (the completion percentage). *)
Inductive pyval :=
| VStr (s : string)
| VInt (z : Z).

#[global] Instance pyval_eq_dec : EqDecision pyval.
Proof. solve_decision. Defined.

(** [params] and the data of an [AdReportRun] are string-keyed mappings;
    [m[k]] raises [KeyError] when [k] is absent. *)
Abbreviation dict := (gmap string pyval).

(** Objects live in a store and are named by their position in it:
    [self._job] holds a reference, so that patching an object in place
    is seen through every alias of it. *)
Abbreviation loc := nat.

(** ** class Status(str, Enum) *)

Inductive Status :=
| COMPLETED
| FAILED
| SKIPPED
| STARTED
| RUNNING
| NOT_STARTED.

Definition Status_value (s : Status) : string :=
  match s with
  | COMPLETED => "Job Completed"
  | FAILED => "Job Failed"
  | SKIPPED => "Job Skipped"
  | STARTED => "Job Started"
  | RUNNING => "Job Running"
  | NOT_STARTED => "Job Not Started"
  end.

(** [v == Status.X]: a [str]-mixin enum member compares equal to exactly
    the string that is its value. *)
Definition py_eq_status (v : pyval) (s : Status) : bool :=
  bool_decide (v = VStr (Status_value s)).

(** [v in [Status.A, Status.B, ...]] *)
Definition py_in_statuses (v : pyval) (l : list Status) : bool :=
  existsb (py_eq_status v) l.

(** ** Exceptions and results *)

Inductive usage :=
| UseAlreadyStarted      (* start: "the job already started, use restart instead" *)
| UseOnlyFailedRestart   (* restart: "only failed jobs can be restarted" *)
| UseNotStarted          (* _update_job: "the job is not started" *)
| UseNotStartedOrFailed. (* get_result: "the job is not started of failed" *)

(** What [__str__] renders: the job id (or the sentinel ["<None>"],
    here [None]), the time range and the breakdowns. *)
Record job_repr := mkRepr {
  repr_id : option pyval;
  repr_time_range : pyval;
  repr_breakdowns : pyval
}.

Inductive exn :=
| RuntimeError (u : usage) (who : job_repr)
| KeyError (k : string)
| AttributeError (attr : string)
| TypeError
| FacebookRequestError
| FacebookBadObjectError.

Inductive result (A : Type) :=
| Ok (a : A)
| Raise (e : exn).
Arguments Ok {A} a.
Arguments Raise {A} e.

(** ** The job and its world *)

Record AsyncJob := mkAsyncJob {
  _params : dict;
  _job : option loc;
  _start_time : option Z;
  _finish_time : option Z;
  _failed : bool
}.

(** A remote call either returns or raises [FacebookRequestError]. *)
Inductive reply (A : Type) :=
| Returns (a : A)
| Fails.
Arguments Returns {A} a.
Arguments Fails {A}.

(** What [AdReportRun.api_get()] hands back: an object of its own
    holding the snapshot, or the receiver itself with the snapshot
    written into it. The source only rebinds [self._job] to the returned
    value, so both are admitted. *)
Inductive refreshed :=
| NewObject (d : dict)
| SameObject (d : dict).

(** The remote service, as an oracle: the answer to the [n]-th remote
    call made so far. *)
Record Remote := mkRemote {
  on_get_insights : nat -> reply dict;
  on_api_get : nat -> reply refreshed;
  on_get_result : nat -> reply dict
}.

Inductive call :=
| CallGetInsights (params : dict)
| CallApiGet (l : loc)
| CallGetResult (l : loc).

Inductive log_entry :=
| LogCreated (job_id time_range breakdowns : pyval)
| LogRestarted (who : job_repr)
| LogProgress (who : job_repr) (pct status : pyval)
| LogTerminal (job : dict) (status : pyval) (seconds : Z).

Record World := mkWorld {
  self : AsyncJob;
  heap : list dict;       (* the SDK objects *)
  clock : Z;              (* what pendulum.now() reads, in seconds *)
  api : Remote;
  calls : list call;      (* remote calls made, oldest first *)
  log : list log_entry    (* logger.info lines, oldest first *)
}.

(** A deferred request, as built by [api_get(pending=True)]: it is bound
    to the object whose status it will fetch. *)
Record FacebookRequest := mkRequest { req_node : loc }.

(** ** A state-and-exception monad for method bodies *)

Definition M (A : Type) : Type := World -> result A * World.

Definition ret {A} (a : A) : M A := fun w => (Ok a, w).
Definition raise {A} (e : exn) : M A := fun w => (Raise e, w).
Definition bind {A B} (m : M A) (k : A -> M B) : M B :=
  fun w => match m w with
           | (Ok a, w') => k a w'
           | (Raise e, w') => (Raise e, w')
           end.

Notation "'do' x <- m ; k" := (bind m (fun x => k))
  (at level 10, x name, m at level 100, k at level 200,
   format "'[v' 'do'  x  <-  m ; '/' k ']'").

Definition get : M World := fun w => (Ok w, w).
Definition modify (f : World -> World) : M unit := fun w => (Ok tt, f w).

(** Field assignments on [self]. *)
Definition with_self (f : AsyncJob -> AsyncJob) (w : World) : World :=
  mkWorld (f (self w)) (heap w) (clock w) (api w) (calls w) (log w).

Definition set_job (j : option loc) (a : AsyncJob) : AsyncJob :=
  mkAsyncJob (_params a) j (_start_time a) (_finish_time a) (_failed a).
Definition set_start_time (t : option Z) (a : AsyncJob) : AsyncJob :=
  mkAsyncJob (_params a) (_job a) t (_finish_time a) (_failed a).
Definition set_finish_time (t : option Z) (a : AsyncJob) : AsyncJob :=
  mkAsyncJob (_params a) (_job a) (_start_time a) t (_failed a).
Definition set_failed (b : bool) (a : AsyncJob) : AsyncJob :=
  mkAsyncJob (_params a) (_job a) (_start_time a) (_finish_time a) b.

Definition with_heap (h : list dict) (w : World) : World :=
  mkWorld (self w) h (clock w) (api w) (calls w) (log w).
Definition with_clock (t : Z) (w : World) : World :=
  mkWorld (self w) (heap w) t (api w) (calls w) (log w).
Definition with_calls (c : list call) (w : World) : World :=
  mkWorld (self w) (heap w) (clock w) (api w) c (log w).
Definition with_log (l : list log_entry) (w : World) : World :=
  mkWorld (self w) (heap w) (clock w) (api w) (calls w) l.

(** [logger.info(...)] *)
Definition logger_info (e : log_entry) : M unit :=
  modify (fun w => with_log (log w ++ [e]) w).

(** [pendulum.now()] *)
Definition pendulum_now : M Z := fun w => (Ok (clock w), w).

(** [time.sleep(s)], as done by the retry policy between attempts. *)
Definition sleep (s : Z) : M unit :=
  modify (fun w => with_clock (clock w + s) w).

(** [m[k]] on a mapping. *)
Definition getitem (m : dict) (k : string) : M pyval :=
  match m !! k with
  | Some v => ret v
  | None => raise (KeyError k)
  end.

(** The data of the object at [l]. *)
Definition obj (w : World) (l : loc) : dict := default ∅ (heap w !! l).

(** [self._job[k]]: subscripting [None] is a [TypeError]. *)
Definition job_getitem (k : string) : M pyval :=
  fun w => match _job (self w) with
           | None => raise TypeError w
           | Some l => getitem (obj w l) k w
           end.

(** Truth value of [self._job]: [None] is false, and an SDK object is a
    mapping, false when it has no entries. *)
Definition job_truthy (w : World) : bool :=
  match _job (self w) with
  | None => false
  | Some l => bool_decide (obj w l ≠ ∅)
  end.

(** Placing a new object in the store. *)
Definition alloc (d : dict) : M loc :=
  fun w => (Ok (length (heap w)), with_heap (heap w ++ [d]) w).

(** [obj._set_data(d)]: the entries of [d] are written into the object,
    its other entries stay. *)
Definition patch (l : loc) (d : dict) : M unit :=
  modify (fun w => with_heap (<[l := d ∪ obj w l]> (heap w)) w).

(** ** The remote collaborators *)

(** One remote call: it is recorded, and the service's answer to it is
    the oracle's entry for its position among the calls made. *)
Definition remote_call {A} (c : call) (answer : Remote -> nat -> reply A) : M A :=
  fun w =>
    let w' := with_calls (calls w ++ [c]) w in
    match answer (api w) (length (calls w)) with
    | Returns a => (Ok a, w')
    | Fails => (Raise FacebookRequestError, w')
    end.

(** [self._api.account.get_insights(params=..., is_async=True)]: the
    kickoff call; its result is a new [AdReportRun]. *)
Definition get_insights (params : dict) : M loc :=
  do d <- remote_call (CallGetInsights params) on_get_insights;
  alloc d.

(** The handle a status re-fetch on [l] results in. *)
Definition deliver (l : loc) (r : refreshed) : M loc :=
  match r with
  | NewObject d => alloc d
  | SameObject d => do _ <- patch l d; ret l
  end.

(** [job.api_get()]: the status re-fetch. *)
Definition api_get (l : loc) : M loc :=
  do r <- remote_call (CallApiGet l) on_api_get;
  deliver l r.

(** [job.api_get(pending=True)]: no call is made, the request is only
    built. *)
Definition api_get_pending (l : loc) : M FacebookRequest :=
  ret (mkRequest l).

(** [job.get_result()]: the remote retrieval of the computation's output;
    the payload is opaque to the job. *)
Definition job_get_result (l : loc) : M dict :=
  remote_call (CallGetResult l) on_get_result.

(** Modelled from the spec: [ObjectParser(reuse_object=o).parse_single(r)]
    is the SDK's parser, outside this repository. It is the
    "reuse-and-patch merge" [ParseDeferredStatusResponse(priorHandle,
    Response) -> JobHandle]: the returned fields are merged into the
    existing handle, fields not present in the response are retained from
    the prior snapshot, and the handle that was passed in is the one
    returned. Without an object to reuse there is nothing to merge into
    and the parser refuses. *)
Definition parse_single (reuse_object : option loc) (response : dict) : M (option loc) :=
  match reuse_object with
  | Some l => do _ <- patch l response; ret (Some l)
  | None => raise FacebookBadObjectError
  end.

(** ** The retry policy *)

(** [max_tries=5] and [factor=5] of [backoff_policy]. *)
Definition max_tries : nat := 5.
Definition factor : Z := 5.

(** [backoff.expo]: the wait after the [k]-th failed attempt, counted
    from 0. *)
Definition expo (k : nat) : Z := factor * 2 ^ Z.of_nat k.

(** Modelled from the spec: [retry_pattern] of [.common] is not among the
    sources. "On a designated transient-failure error class, retry with
    exponential backoff (initial delay, multiplicative factor, capped
    attempt count); on attempt exhaustion, the error propagates to the
    caller." The designated class is the [FacebookRequestError] named in
    [backoff_policy]; any other exception passes through at once.
    [retry_from k left f] makes up to [S left] attempts, the first of them
    being attempt number [k]. *)
Fixpoint retry_from {A} (k left : nat) (f : M A) : M A :=
  fun w =>
    match f w with
    | (Raise FacebookRequestError, w') =>
        match left with
        | O => (Raise FacebookRequestError, w')
        | S left' => (do _ <- sleep (expo k); retry_from (S k) left' f) w'
        end
    | other => other
    end.

(** [backoff_policy = retry_pattern(backoff.expo, FacebookRequestError,
    max_tries=5, factor=5)], as a decorator: the method body is the
    attempt. *)
Definition backoff_policy {A} (f : M A) : M A :=
  retry_from 0 (pred max_tries) f.

(** ** class AsyncJob *)

(** [AsyncJob(api, params)] *)
Definition AsyncJob_init (params : dict) : AsyncJob :=
  mkAsyncJob params None None None false.

(** A world in which the job has just been constructed. *)
Definition new_world (remote : Remote) (params : dict) (now : Z) : World :=
  mkWorld (AsyncJob_init params) [] now remote [] [].

(** [__str__] *)
Definition __str__ : M job_repr :=
  do w <- get;
  do job_id <- (if job_truthy w
                then do v <- job_getitem "report_run_id"; ret (Some v)
                else ret None);
  do time_range <- getitem (_params (self w)) "time_range";
  do breakdowns <- getitem (_params (self w)) "breakdowns";
  ret (mkRepr job_id time_range breakdowns).

(** The body of [start], one attempt. *)
Definition start_body : M unit :=
  do w <- get;
  if job_truthy w then
    do s <- __str__;
    raise (RuntimeError UseAlreadyStarted s)
  else
    do l <- get_insights (_params (self w));
    do _ <- modify (with_self (set_job (Some l)));
    do t <- pendulum_now;
    do _ <- modify (with_self (set_start_time (Some t)));
    do job_id <- job_getitem "report_run_id";
    do time_range <- getitem (_params (self w)) "time_range";
    do breakdowns <- getitem (_params (self w)) "breakdowns";
    logger_info (LogCreated job_id time_range breakdowns).

(** [start], under [@backoff_policy] *)
Definition start : M unit := backoff_policy start_body.

(** [failed] *)
Definition failed (w : World) : bool := _failed (self w).

(** [restart] *)
Definition restart : M unit :=
  do w <- get;
  if negb (job_truthy w) || negb (failed w) then
    do s <- __str__;
    raise (RuntimeError UseOnlyFailedRestart s)
  else
    do _ <- modify (with_self (set_job None));
    do _ <- modify (with_self (set_failed false));
    do _ <- modify (with_self (set_start_time None));
    do _ <- modify (with_self (set_finish_time None));
    do _ <- start;
    do s <- __str__;
    logger_info (LogRestarted s).

(** [elapsed_time] *)
Definition elapsed_time : M (option Z) :=
  do w <- get;
  match _start_time (self w) with
  | None => ret None
  | Some t0 =>
      do end_time <- match _finish_time (self w) with
                     | Some t => ret t
                     | None => pendulum_now
                     end;
      ret (Some (end_time - t0))
  end.

(** [_check_status] *)
Definition _check_status : M bool :=
  do job_progress_pct <- job_getitem "async_percent_completion";
  do s <- __str__;
  do shown <- job_getitem "async_status";
  do _ <- logger_info (LogProgress s job_progress_pct shown);
  do job_status <- job_getitem "async_status";
  if py_eq_status job_status COMPLETED then
    do t <- pendulum_now;
    do _ <- modify (with_self (set_finish_time (Some t)));
    ret true
  else if py_in_statuses job_status [FAILED; SKIPPED] then
    do t <- pendulum_now;
    do _ <- modify (with_self (set_finish_time (Some t)));
    do _ <- modify (with_self (set_failed true));
    do e <- elapsed_time;
    match e with
    | None => raise (AttributeError "in_seconds")
    | Some secs =>
        do w <- get;
        do _ <- logger_info
                  (LogTerminal (default ∅ (obj w <$> _job (self w))) job_status secs);
        ret true
    end
  else ret false.

(** The body of [_update_job], one attempt. *)
Definition _update_job_body : M unit :=
  do w <- get;
  if negb (job_truthy w) then
    do s <- __str__;
    raise (RuntimeError UseNotStarted s)
  else
    match _job (self w) with
    | None => raise (AttributeError "api_get")
    | Some l =>
        do l' <- api_get l;
        modify (with_self (set_job (Some l')))
    end.

(** [_update_job], under [@backoff_policy] *)
Definition _update_job : M unit := backoff_policy _update_job_body.

(** [completed] *)
Definition completed : M bool :=
  do w <- get;
  match _finish_time (self w) with
  | Some _ => ret true
  | None =>
      do _ <- _update_job;
      _check_status
  end.

(** [batch_update_request] *)
Definition batch_update_request : M (option FacebookRequest) :=
  do w <- get;
  match _finish_time (self w) with
  | Some _ => ret None
  | None =>
      match _job (self w) with
      | None => raise (AttributeError "api_get")
      | Some l => do r <- api_get_pending l; ret (Some r)
      end
  end.

(** [process_batch_result(response)], on [response.json()] *)
Definition process_batch_result (response : dict) : M unit :=
  do w <- get;
  do j <- parse_single (_job (self w)) response;
  do _ <- modify (with_self (set_job j));
  do _ <- _check_status;
  ret tt.

(** The body of [get_result], one attempt. *)
Definition get_result_body : M dict :=
  do w <- get;
  if negb (job_truthy w) || failed w then
    do s <- __str__;
    raise (RuntimeError UseNotStartedOrFailed s)
  else
    match _job (self w) with
    | None => raise (AttributeError "get_result")
    | Some l => job_get_result l
    end.

(** [get_result], under [@backoff_policy] *)
Definition get_result : M dict := backoff_policy get_result_body.

(** * Notions used in the statements *)

(** What [__str__] evaluates to; it reads the job and changes nothing. *)
Definition str_of (w : World) : result job_repr := fst (__str__ w).

(** ** Statuses *)

Definition terminal (v : pyval) : Prop :=
  v = VStr (Status_value COMPLETED) \/ v = VStr (Status_value FAILED)
  \/ v = VStr (Status_value SKIPPED).

Definition failure_terminal (v : pyval) : Prop :=
  v = VStr (Status_value FAILED) \/ v = VStr (Status_value SKIPPED).

(** ** Worlds along a retried call *)

(** The time slept across [n] consecutive failed attempts, the first of
    them being attempt number [k]. *)
Fixpoint waited (k n : nat) : Z :=
  match n with
  | O => 0
  | S n' => expo k + waited (S k) n'
  end.

(** The world after [n] attempts that each made the remote call [c] and
    failed, the waits between them included. *)
Definition after_failures (c : call) (k n : nat) (w : World) : World :=
  with_clock (clock w + waited k n) (with_calls (calls w ++ replicate n c) w).

(** The world right after the remote call [c] was made. *)
Definition called (c : call) (w : World) : World :=
  with_calls (calls w ++ [c]) w.

(** ** Outcomes of one attempt *)

(** What raising [RuntimeError(f"{self}: ...")] comes to: the usage
    error, unless rendering the job fails first. *)
Definition usage_error {A} (u : usage) (w : World) : result A :=
  match str_of w with
  | Ok s => Raise (RuntimeError u s)
  | Raise e => Raise e
  end.

(** The world once the re-fetched handle is bound to [self._job]. *)
Definition rebound (l : loc) (r : refreshed) (w : World) : World :=
  match r with
  | NewObject d =>
      with_self (set_job (Some (length (heap w)))) (with_heap (heap w ++ [d]) w)
  | SameObject d =>
      with_self (set_job (Some l)) (with_heap (<[l := d ∪ obj w l]> (heap w)) w)
  end.

(** The world once the handle answered by the kickoff call is bound and
    the start time is stamped. *)
Definition kicked_off (d : dict) (w : World) : World :=
  with_self (set_start_time (Some (clock w)))
    (with_self (set_job (Some (length (heap w)))) (with_heap (heap w ++ [d]) w)).

Ltac run_monad :=
  cbv beta iota delta
    [bind ret raise get modify logger_info pendulum_now sleep remote_call
     get_insights api_get api_get_pending job_get_result deliver alloc patch
     parse_single elapsed_time].

(** The calls the three retried methods make. *)
Definition refresh_call (w : World) : call := CallApiGet (default 0%nat (_job (self w))).
Definition result_call (w : World) : call := CallGetResult (default 0%nat (_job (self w))).
Definition kickoff_call (w : World) : call := CallGetInsights (_params (self w)).

(** The job after the four assignments at the head of [restart]. *)
Definition cleared (w : World) : World :=
  with_self (set_finish_time None)
    (with_self (set_start_time None)
       (with_self (set_failed false)
          (with_self (set_job None) w))).

(** ** What a retried method leaves behind *)

(** What a retried method leaves behind: at most [max_tries] remote
    calls, and, if it ends in the transient error, exactly [max_tries]
    of them, with the job's fields and the store as they were. *)
Definition bounded_and_clean {A} (w : World) (out : result A * World) : Prop :=
  (length (calls (snd out)) <= length (calls w) + max_tries)%nat
  /\ (fst out = Raise FacebookRequestError ->
      length (calls (snd out)) = (length (calls w) + max_tries)%nat
      /\ self (snd out) = self w /\ heap (snd out) = heap w).

(** The world in which a retried method gives up: [max_tries] calls [c]
    were made and the waits between them were slept. *)
Definition given_up (c : call) (w : World) : World :=
  called c (after_failures c 0 (pred max_tries) w).

(** ** Outcomes of the status rule *)

(** The world after the progress line, and after each of the two
    terminal branches. *)
Definition progress_logged (who : job_repr) (pct st : pyval) (w : World) : World :=
  with_log (log w ++ [LogProgress who pct st]) w.

Definition finished (w : World) : World :=
  with_self (set_finish_time (Some (clock w))) w.

Definition finished_failed (w : World) : World :=
  with_self (set_failed true) (finished w).

(** What the rule does once the status [st] has been read. *)
Definition ruled (l : loc) (st : pyval) (w1 : World) : result bool * World :=
  if py_eq_status st COMPLETED then (Ok true, finished w1)
  else if py_in_statuses st [FAILED; SKIPPED] then
    match _start_time (self w1) with
    | Some t0 =>
        (Ok true,
         with_log (log w1 ++ [LogTerminal (obj w1 l) st (clock w1 - t0)])
           (finished_failed w1))
    | None => (Raise (AttributeError "in_seconds"), finished_failed w1)
    end
  else (Ok false, w1).

Definition void {A} (r : result A) : result unit :=
  match r with
  | Ok _ => Ok tt
  | Raise e => Raise e
  end.

(** What [__str__] renders once the job id is known. *)
Definition render (job_id : option pyval) (params : dict) : result job_repr :=
  match params !! "time_range" with
  | None => Raise (KeyError "time_range")
  | Some time_range =>
      match params !! "breakdowns" with
      | None => Raise (KeyError "breakdowns")
      | Some breakdowns => Ok (mkRepr job_id time_range breakdowns)
      end
  end.

(** ** The status invariant and the runs of a job *)

(** The remote status the job last observed is the one recorded in the
    handle it holds: every observation is a handle update followed by the
    rule, and [restart] drops the observation with the handle. *)
Definition observed (w : World) : option pyval :=
  match _job (self w) with
  | Some l => obj w l !! "async_status"
  | None => None
  end.

Definition status_invariant (w : World) : Prop :=
  (is_Some (_finish_time (self w)) <->
   exists v, observed w = Some v /\ terminal v)
  /\ (_failed (self w) = true <->
      exists v, observed w = Some v /\ failure_terminal v).

(** The public operations, and the world each leaves behind, whether it
    returned or raised. *)
Inductive operation :=
| Start
| Restart
| Completed
| BatchUpdateRequest
| ProcessBatchResult (response : dict)
| FetchResult.

Definition perform (o : operation) (w : World) : World :=
  match o with
  | Start => snd (start w)
  | Restart => snd (restart w)
  | Completed => snd (completed w)
  | BatchUpdateRequest => snd (batch_update_request w)
  | ProcessBatchResult response => snd (process_batch_result response w)
  | FetchResult => snd (get_result w)
  end.

(** The rule can read the handle: when the status in the handle is
    terminal, the handle also carries the completion percentage and the
    job can be rendered, which is what [_check_status] evaluates before
    it looks at the status. *)
Definition rule_can_read (w : World) : Prop :=
  forall l st,
    _job (self w) = Some l ->
    obj w l !! "async_status" = Some st ->
    terminal st ->
    is_Some (obj w l !! "async_percent_completion")
    /\ exists who, str_of w = Ok who.



(** Time passing between two operations. *)
Definition tick (dt : Z) (w : World) : World := with_clock (clock w + dt) w.

(** The worlds a job goes through: constructed, then operated on by a
    caller that only performs the operations [may] lets through, time
    passing in between. *)
Inductive reachable (may : operation -> World -> Prop)
    (remote : Remote) (params : dict) : World -> Prop :=
| reach_new now : reachable may remote params (new_world remote params now)
| reach_op w o :
    reachable may remote params w -> may o w ->
    reachable may remote params (perform o w)
| reach_tick w dt :
    reachable may remote params w ->
    reachable may remote params (tick dt w).

(** A caller under no restriction. *)
Definition any_use (o : operation) (w : World) : Prop := True.

(** A job that holds a handle has its start time stamped. *)
Definition stamped (w : World) : Prop :=
  _job (self w) <> None -> _start_time (self w) <> None.


(** ** The order of a job's life *)

(** A failed job is finished, a finished job holds a handle, and a job
    holds a handle exactly when its start time is stamped. *)
Definition lifecycle_ordered (w : World) : Prop :=
  (_failed (self w) = true -> _finish_time (self w) <> None)
  /\ (_finish_time (self w) <> None -> _job (self w) <> None)
  /\ (_job (self w) <> None <-> _start_time (self w) <> None).

(** A finished job holds a handle that is a non-empty mapping. *)
Definition finished_holds_handle (w : World) : Prop :=
  _finish_time (self w) <> None -> job_truthy w = true.

(** The start time and the finish time lie in the past, in that order. *)
Definition timeline (w : World) : Prop :=
  (forall t0, _start_time (self w) = Some t0 -> t0 <= clock w)
  /\ (forall tf, _finish_time (self w) = Some tf -> tf <= clock w)
  /\ (forall t0 tf, _start_time (self w) = Some t0 ->
         _finish_time (self w) = Some tf -> t0 <= tf).

(** The worlds a job goes through when the clock never goes back. *)
Inductive forward (remote : Remote) (params : dict) : World -> Prop :=
| forward_new now : forward remote params (new_world remote params now)
| forward_op w o : forward remote params w -> forward remote params (perform o w)
| forward_tick w dt :
    forward remote params w -> 0 <= dt -> forward remote params (tick dt w).

(** * octavia_cli/list/base.py: class BaseListing *)

Module Listing.

(** [item[field]] outside the job's world. *)
Definition item_get (item : dict) (field : string) : result pyval :=
  match item !! field with
  | Some v => Ok v
  | None => Raise (KeyError field)
  end.

(** A list comprehension [[f(x) for x in l]]: the elements are computed
    in order and the first exception ends it. *)
Fixpoint comprehension {A B} (f : A -> result B) (l : list A) : result (list B) :=
  match l with
  | [] => Ok []
  | x :: l' =>
      match f x with
      | Raise e => Raise e
      | Ok y =>
          match comprehension f l' with
          | Raise e => Raise e
          | Ok ys => Ok (y :: ys)
          end
      end
  end.

(** [_parse_response]; the abstract properties [fields_to_display] and
    [list_field_in_response] of the class are its first two arguments,
    and the response maps a field name to a list of items. *)
Definition _parse_response (fields_to_display : list string)
    (list_field_in_response : string)
    (api_response : gmap string (list dict)) : result (list (list pyval)) :=
  match api_response !! list_field_in_response with
  | None => Raise (KeyError list_field_in_response)
  | Some items =>
      comprehension
        (fun item => comprehension (fun field => item_get item field)
                       fields_to_display)
        items
  end.

(** A listing of sources: two items, shown by name and id. *)
Definition fields : list string := ["name"; "sourceId"].

Definition response : gmap string (list dict) :=
  {[ "sources" :=
       [ {[ "name" := VStr "pokeapi"; "sourceId" := VStr "s-1";
            "workspaceId" := VStr "w-1" ]};
         {[ "name" := VStr "faker"; "sourceId" := VStr "s-2" ]} ] ]}.

End Listing.

(** ** Sample data, used to run the definitions on concrete jobs *)

Module Sample.

Definition params : dict :=
  {[ "time_range" := VStr "2021-10-01/2021-10-02"; "breakdowns" := VStr "age" ]}.

(** What the kickoff call answers: the identifier of the report run. *)
Definition created : dict := {[ "report_run_id" := VStr "1001" ]}.

(** A status snapshot of that run. *)
Definition snapshot (pct : Z) (s : Status) : dict :=
  {[ "report_run_id" := VStr "1001";
     "async_percent_completion" := VInt pct;
     "async_status" := VStr (Status_value s) ]}.

(** A batch response carrying the status fields only. *)
Definition status_only (pct : Z) (s : Status) : dict :=
  {[ "async_percent_completion" := VInt pct;
     "async_status" := VStr (Status_value s) ]}.

Definition who : job_repr :=
  mkRepr (Some (VStr "1001")) (VStr "2021-10-01/2021-10-02") (VStr "age").

Definition nobody : job_repr :=
  mkRepr None (VStr "2021-10-01/2021-10-02") (VStr "age").

(** A service that answers every call at once: a status call gets a new
    object reporting status [s]. *)
Definition steady (s : Status) : Remote :=
  mkRemote (fun _ => Returns created)
           (fun _ => Returns (NewObject (snapshot 50 s)))
           (fun _ => Returns (snapshot 100 COMPLETED)).

(** A service whose status call updates the handle in place with the two
    status fields, reporting status [s]. *)
Definition merging (s : Status) : Remote :=
  mkRemote (fun _ => Returns created)
           (fun _ => Returns (SameObject (status_only 50 s)))
           (fun _ => Returns (snapshot 100 COMPLETED)).

(** A service whose every call fails with the transient error. *)
Definition down : Remote :=
  mkRemote (fun _ => Fails) (fun _ => Fails) (fun _ => Fails).

(** A job that was never started, at time 0. *)
Definition fresh (r : Remote) : World := new_world r params 0.

(** A job started on the service [r] at time 10, looked at at time 70. *)
Definition started (r : Remote) : World :=
  tick 60 (perform Start (new_world r params 10)).

(** That job right after its status was re-fetched, before the rule is
    applied. *)
Definition refreshed (r : Remote) : World := snd (_update_job (started r)).

(** That job after one call of [completed]. *)
Definition checked (r : Remote) : World := perform Completed (started r).

(** A started job after a batch response with the two status fields has
    been processed. *)
Definition polled : World :=
  perform (ProcessBatchResult (status_only 50 RUNNING)) (started (steady RUNNING)).

(** A job started at time 10 and found Completed at time 60, looked at
    again at time 70. *)
Definition finished_at_60 : World :=
  tick 10 (perform Completed
             (tick 50 (perform Start (new_world (steady COMPLETED) params 10)))).

(** The job found Completed, after a batch response reporting Running is
    processed although the job is finished. *)
Definition finished_then_running : World :=
  perform (ProcessBatchResult (snapshot 50 RUNNING)) (checked (steady COMPLETED)).

End Sample.

(** * Properties *)

(** ** Basic facts about the building blocks *)

Lemma str_pure (w : World) : __str__ w = (str_of w, w).
Proof.
  unfold str_of, __str__, bind, get, job_getitem, getitem, ret, raise.
  destruct (job_truthy w), (_job (self w)) as [l|];
    try destruct (obj w l !! "report_run_id");
    destruct (_params (self w) !! "time_range");
    destruct (_params (self w) !! "breakdowns"); reflexivity.
Qed.

(** [__str__] looks at [_params], [_job] and the store only. *)
Lemma str_of_frame (w w' : World) :
  _params (self w') = _params (self w) ->
  _job (self w') = _job (self w) ->
  heap w' = heap w ->
  str_of w' = str_of w.
Proof.
  intros Hp Hj Hh.
  unfold str_of, __str__, bind, get, job_getitem, job_truthy, obj, getitem, ret, raise.
  destruct w as [[p j s f b] h c a cs lg], w' as [[p' j' s' f' b'] h' c' a' cs' lg'].
  simpl in *. subst p' j' h'.
  destruct j as [l|]; simpl;
    try destruct (bool_decide _); simpl;
    try destruct (default ∅ (h !! l) !! "report_run_id"); simpl;
    destruct (p !! "time_range"); destruct (p !! "breakdowns"); reflexivity.
Qed.

Lemma job_getitem_found (w : World) l d k v :
  _job (self w) = Some l -> heap w !! l = Some d -> d !! k = Some v ->
  job_getitem k w = (Ok v, w).
Proof.
  intros Hj Hl Hk. unfold job_getitem, obj, getitem.
  rewrite Hj, Hl. simpl. rewrite Hk. reflexivity.
Qed.

Lemma py_eq_status_true (v : pyval) (s : Status) :
  py_eq_status v s = true <-> v = VStr (Status_value s).
Proof. unfold py_eq_status. apply bool_decide_eq_true. Qed.

Lemma py_eq_status_false (v : pyval) (s : Status) :
  py_eq_status v s = false <-> v <> VStr (Status_value s).
Proof. unfold py_eq_status. apply bool_decide_eq_false. Qed.

(** ** The status transition rule *)

(** C1. The transition rule of [_check_status], on a job whose handle
    carries the completion percentage and the status and whose
    description can be rendered for the log line: status Completed sets
    [_finish_time] to the current time and returns true; status Failed or
    Skipped sets [_finish_time], sets [_failed] and returns true (the
    elapsed seconds it logs are taken from [_start_time]); any other
    status returns false, and the job's fields ([_params], [_job],
    [_start_time], [_finish_time], [_failed]) and the store are what they
    were: only the progress line was logged. *)
Theorem check_status_transition_rule (w : World) l d pct st who :
  _job (self w) = Some l ->
  heap w !! l = Some d ->
  d !! "async_percent_completion" = Some pct ->
  d !! "async_status" = Some st ->
  str_of w = Ok who ->
  let w1 := with_log (log w ++ [LogProgress who pct st]) w in
  (st = VStr (Status_value COMPLETED) ->
     _check_status w
     = (Ok true, with_self (set_finish_time (Some (clock w))) w1))
  /\ (forall t0, _start_time (self w) = Some t0 -> failure_terminal st ->
     _check_status w
     = (Ok true,
        with_log (log w1 ++ [LogTerminal d st (clock w - t0)])
          (with_self (set_failed true)
             (with_self (set_finish_time (Some (clock w))) w1))))
  /\ (~ terminal st ->
     exists w', _check_status w = (Ok false, w')
                /\ self w' = self w /\ heap w' = heap w /\ w' = w1).
Proof.
  intros Hj Hl Hpct Hst Hwho w1.
  assert (Hhead : forall k : pyval -> M bool,
             (do job_progress_pct <- job_getitem "async_percent_completion";
              do s <- __str__;
              do shown <- job_getitem "async_status";
              do _ <- logger_info (LogProgress s job_progress_pct shown);
              do job_status <- job_getitem "async_status";
              k job_status) w = k st w1).
  { intros k. unfold bind at 1.
    rewrite (job_getitem_found w l d _ pct) by assumption.
    unfold bind at 1. rewrite str_pure, Hwho.
    unfold bind at 1.
    rewrite (job_getitem_found w l d _ st) by assumption.
    unfold bind at 1. unfold logger_info, modify. fold w1.
    unfold bind at 1.
    rewrite (job_getitem_found w1 l d _ st) by assumption.
    reflexivity. }
  unfold _check_status.
  split; [|split].
  - intros ->. rewrite Hhead. reflexivity.
  - intros t0 Ht0 Hf. rewrite Hhead.
    assert (py_eq_status st COMPLETED = false) as ->.
    { apply py_eq_status_false. destruct Hf as [-> | ->]; discriminate. }
    assert (py_in_statuses st [FAILED; SKIPPED] = true) as ->.
    { unfold py_in_statuses. simpl. apply orb_true_iff.
      destruct Hf as [Hf | Hf]; [left | right; apply orb_true_iff; left];
        apply py_eq_status_true; exact Hf. }
    cbv beta iota delta [bind pendulum_now modify elapsed_time get ret logger_info].
    subst w1. simpl. rewrite Ht0. simpl. rewrite Hj. simpl.
    unfold obj. simpl. rewrite Hl. reflexivity.
  - intros Hnt. rewrite Hhead.
    assert (py_eq_status st COMPLETED = false) as ->.
    { apply py_eq_status_false. intros E. apply Hnt. left. exact E. }
    assert (py_in_statuses st [FAILED; SKIPPED] = false) as ->.
    { unfold py_in_statuses. simpl. rewrite orb_false_r. apply orb_false_iff.
      split; apply py_eq_status_false; intros E; apply Hnt;
        [right; left | right; right]; exact E. }
    exists w1. repeat split.
Qed.

(** A run of the rule after a refresh that found Completed, and after one
    that found Failed. *)
Lemma check_status_transition_rule_witness :
  (_job (self (Sample.refreshed (Sample.steady COMPLETED))) = Some 1%nat
   /\ heap (Sample.refreshed (Sample.steady COMPLETED)) !! 1%nat
      = Some (Sample.snapshot 50 COMPLETED)
   /\ Sample.snapshot 50 COMPLETED !! "async_percent_completion" = Some (VInt 50)
   /\ Sample.snapshot 50 COMPLETED !! "async_status" = Some (VStr "Job Completed")
   /\ str_of (Sample.refreshed (Sample.steady COMPLETED)) = Ok Sample.who)
  /\ fst (_check_status (Sample.refreshed (Sample.steady COMPLETED))) = Ok true
  /\ _finish_time (self (snd (_check_status (Sample.refreshed (Sample.steady COMPLETED)))))
     = Some 70
  /\ fst (_check_status (Sample.refreshed (Sample.steady FAILED))) = Ok true
  /\ _failed (self (snd (_check_status (Sample.refreshed (Sample.steady FAILED)))))
     = true.
Proof.
  assert (H1 : _job (self (Sample.refreshed (Sample.steady COMPLETED))) = Some 1%nat)
    by (vm_compute; reflexivity).
  assert (H2 : heap (Sample.refreshed (Sample.steady COMPLETED)) !! 1%nat
               = Some (Sample.snapshot 50 COMPLETED)) by (vm_compute; reflexivity).
  assert (H3 : Sample.snapshot 50 COMPLETED !! "async_percent_completion"
               = Some (VInt 50)) by (vm_compute; reflexivity).
  assert (H4 : Sample.snapshot 50 COMPLETED !! "async_status"
               = Some (VStr "Job Completed")) by (vm_compute; reflexivity).
  assert (H5 : str_of (Sample.refreshed (Sample.steady COMPLETED)) = Ok Sample.who)
    by (vm_compute; reflexivity).
  assert (G1 : _job (self (Sample.refreshed (Sample.steady FAILED))) = Some 1%nat)
    by (vm_compute; reflexivity).
  assert (G2 : heap (Sample.refreshed (Sample.steady FAILED)) !! 1%nat
               = Some (Sample.snapshot 50 FAILED)) by (vm_compute; reflexivity).
  assert (G3 : Sample.snapshot 50 FAILED !! "async_percent_completion"
               = Some (VInt 50)) by (vm_compute; reflexivity).
  assert (G4 : Sample.snapshot 50 FAILED !! "async_status"
               = Some (VStr "Job Failed")) by (vm_compute; reflexivity).
  assert (G5 : str_of (Sample.refreshed (Sample.steady FAILED)) = Ok Sample.who)
    by (vm_compute; reflexivity).
  assert (G6 : _start_time (self (Sample.refreshed (Sample.steady FAILED))) = Some 10)
    by (vm_compute; reflexivity).
  destruct (check_status_transition_rule _ 1%nat _ _ _ _ H1 H2 H3 H4 H5)
    as (Hc & _ & _).
  destruct (check_status_transition_rule _ 1%nat _ _ _ _ G1 G2 G3 G4 G5)
    as (_ & Hf & _).
  split; [repeat split; assumption|].
  rewrite (Hc eq_refl), (Hf 10 G6 (or_introl eq_refl)).
  split; [reflexivity|]. split; [vm_compute; reflexivity|].
  split; reflexivity.
Defined.

(** ** The retry policy at work *)

Lemma after_failures_O c k w : after_failures c k 0 w = w.
Proof.
  unfold after_failures, with_clock, with_calls. simpl.
  rewrite app_nil_r, Z.add_0_r. destruct w; reflexivity.
Qed.

Lemma after_failures_S c k n w :
  after_failures c (S k) n (with_clock (clock w + expo k) (called c w))
  = after_failures c k (S n) w.
Proof.
  unfold after_failures, called, with_clock, with_calls. simpl.
  rewrite <- app_assoc, Z.add_assoc. reflexivity.
Qed.

Lemma after_failures_self c k n w : self (after_failures c k n w) = self w.
Proof. reflexivity. Qed.

Lemma after_failures_heap c k n w : heap (after_failures c k n w) = heap w.
Proof. reflexivity. Qed.

Lemma after_failures_calls c k n w :
  length (calls (after_failures c k n w)) = (length (calls w) + n)%nat.
Proof. simpl. rewrite length_app, length_replicate. reflexivity. Qed.

Section Retry.

Context {A : Type}.
(** One attempt, and the single remote call it makes. *)
Variable body : M A.
Variable the_call : World -> call.

(** An attempt that fails with the transient error has made its call
    and done nothing else. *)
Hypothesis transient_clean :
  forall w w', body w = (Raise FacebookRequestError, w') ->
               w' = called (the_call w) w.
(** The call depends on the job only. *)
Hypothesis the_call_frame :
  forall w w', self w' = self w -> the_call w' = the_call w.

(** The retried call is its last attempt, made after [n <= left]
    failed ones; it is the last either because it did not fail with the
    transient error or because the attempts are used up. *)
Lemma retry_from_last (left k : nat) (w : World) :
  exists n, (n <= left)%nat
    /\ retry_from k left body w = body (after_failures (the_call w) k n w)
    /\ (forall i, (i < n)%nat ->
          fst (body (after_failures (the_call w) k i w))
          = Raise FacebookRequestError)
    /\ ((n < left)%nat ->
          fst (body (after_failures (the_call w) k n w))
          <> Raise FacebookRequestError).
Proof.
  revert k w. induction left as [|left IH]; intros k w.
  - exists 0%nat. rewrite after_failures_O. simpl.
    split; [lia|]. split.
    + destruct (body w) as [[a|[]] w']; reflexivity.
    + split; intros; lia.
  - simpl. destruct (body w) as [r w'] eqn:Hb.
    assert (Hnot : r <> Raise FacebookRequestError ->
              exists n, (n <= S left)%nat
                /\ (r, w') = body (after_failures (the_call w) k n w)
                /\ (forall i, (i < n)%nat ->
                      fst (body (after_failures (the_call w) k i w))
                      = Raise FacebookRequestError)
                /\ ((n < S left)%nat ->
                      fst (body (after_failures (the_call w) k n w))
                      <> Raise FacebookRequestError)).
    { intros Hr. exists 0%nat. rewrite after_failures_O, Hb. simpl.
      split; [lia|]. split; [reflexivity|]. split; [intros; lia|].
      intros _. exact Hr. }
    destruct r as [a|e]; [apply Hnot; discriminate|].
    destruct e; try (apply Hnot; discriminate).
    apply transient_clean in Hb as Hw'. subst w'.
    unfold bind, sleep, modify.
    set (w1 := with_clock _ _).
    destruct (IH (S k) w1) as (n & Hn & Heq & Hbefore & Hlast).
    assert (Hc : the_call w1 = the_call w) by (apply the_call_frame; reflexivity).
    rewrite Hc in *. subst w1.
    assert (Hshift : forall j,
               after_failures (the_call w) (S k) j
                 (with_clock (clock (called (the_call w) w) + expo k)
                    (called (the_call w) w))
               = after_failures (the_call w) k (S j) w).
    { intros j. apply (after_failures_S (the_call w) k j w). }
    exists (S n). split; [lia|]. split.
    + rewrite Heq, Hshift. reflexivity.
    + split.
      * intros [|i] Hi.
        -- rewrite after_failures_O, Hb. reflexivity.
        -- rewrite <- Hshift. apply Hbefore. lia.
      * intros Hlt. rewrite <- Hshift. apply Hlast. lia.
Qed.

End Retry.

(** ** One attempt of each retried method *)

Lemma raise_usage {A} (u : usage) (w : World) :
  (do s <- __str__; raise (A := A) (RuntimeError u s)) w = (usage_error u w, w).
Proof.
  unfold bind. rewrite str_pure. unfold usage_error.
  destruct (str_of w); reflexivity.
Qed.

Lemma update_job_body_unstarted (w : World) :
  job_truthy w = false ->
  _update_job_body w = (usage_error UseNotStarted w, w).
Proof.
  intros Ht. unfold _update_job_body. unfold bind at 1, get. rewrite Ht. simpl.
  apply raise_usage.
Qed.

Lemma update_job_body_started (w : World) l :
  job_truthy w = true -> _job (self w) = Some l ->
  _update_job_body w
  = match on_api_get (api w) (length (calls w)) with
    | Returns r => (Ok tt, rebound l r (called (CallApiGet l) w))
    | Fails => (Raise FacebookRequestError, called (CallApiGet l) w)
    end.
Proof.
  intros Ht Hj. unfold _update_job_body. unfold bind at 1, get.
  rewrite Ht, Hj. simpl. run_monad.
  destruct (on_api_get (api w) (length (calls w))) as [[d|d]|]; reflexivity.
Qed.

Lemma get_result_body_refused (w : World) :
  job_truthy w = false \/ failed w = true ->
  get_result_body w = (usage_error UseNotStartedOrFailed w, w).
Proof.
  intros H. unfold get_result_body. unfold bind at 1, get.
  assert (negb (job_truthy w) || failed w = true) as ->.
  { destruct H as [-> | ->]; [reflexivity | apply orb_true_r]. }
  apply raise_usage.
Qed.

Lemma get_result_body_allowed (w : World) l :
  job_truthy w = true -> failed w = false -> _job (self w) = Some l ->
  get_result_body w
  = match on_get_result (api w) (length (calls w)) with
    | Returns p => (Ok p, called (CallGetResult l) w)
    | Fails => (Raise FacebookRequestError, called (CallGetResult l) w)
    end.
Proof.
  intros Ht Hf Hj. unfold get_result_body. unfold bind at 1, get.
  rewrite Ht, Hf, Hj. simpl. run_monad.
  destruct (on_get_result (api w) (length (calls w))); reflexivity.
Qed.

Lemma start_body_started (w : World) :
  job_truthy w = true ->
  start_body w = (usage_error UseAlreadyStarted w, w).
Proof.
  intros Ht. unfold start_body. unfold bind at 1, get. rewrite Ht.
  apply raise_usage.
Qed.

Lemma start_body_unstarted (w : World) :
  job_truthy w = false ->
  start_body w
  = let c := CallGetInsights (_params (self w)) in
    match on_get_insights (api w) (length (calls w)) with
    | Fails => (Raise FacebookRequestError, called c w)
    | Returns d =>
        let w1 := kicked_off d (called c w) in
        match d !! "report_run_id" with
        | None => (Raise (KeyError "report_run_id"), w1)
        | Some job_id =>
            match _params (self w) !! "time_range" with
            | None => (Raise (KeyError "time_range"), w1)
            | Some time_range =>
                match _params (self w) !! "breakdowns" with
                | None => (Raise (KeyError "breakdowns"), w1)
                | Some breakdowns =>
                    (Ok tt,
                     with_log (log w ++ [LogCreated job_id time_range breakdowns]) w1)
                end
            end
        end
    end.
Proof.
  intros Ht. unfold start_body. unfold bind at 1, get. rewrite Ht.
  run_monad. simpl.
  destruct (on_get_insights (api w) (length (calls w))) as [d|]; [|reflexivity].
  unfold job_getitem, getitem, obj. simpl.
  rewrite lookup_app_r by lia. rewrite Nat.sub_diag. simpl.
  destruct (d !! "report_run_id"); [|reflexivity].
  destruct (_params (self w) !! "time_range"); [|reflexivity].
  destruct (_params (self w) !! "breakdowns"); reflexivity.
Qed.

Lemma job_truthy_frame (w w' : World) :
  self w' = self w -> heap w' = heap w -> job_truthy w' = job_truthy w.
Proof. intros Hs Hh. unfold job_truthy, obj. rewrite Hs, Hh. reflexivity. Qed.

Lemma job_truthy_Some (w : World) :
  job_truthy w = true -> exists l, _job (self w) = Some l.
Proof.
  unfold job_truthy. destruct (_job (self w)) as [l|]; [eauto | discriminate].
Qed.

(** Rendering the job never fails with the transient error. *)
Lemma str_of_not_transient (w : World) : str_of w <> Raise FacebookRequestError.
Proof.
  unfold str_of, __str__, bind, get, job_getitem, getitem, ret, raise.
  destruct (job_truthy w), (_job (self w)) as [l|];
    try destruct (obj w l !! "report_run_id");
    destruct (_params (self w) !! "time_range");
    destruct (_params (self w) !! "breakdowns"); discriminate.
Qed.

Lemma usage_error_not_transient {A} u w :
  usage_error (A := A) u w <> Raise FacebookRequestError.
Proof.
  unfold usage_error. pose proof (str_of_not_transient w) as H.
  destruct (str_of w) as [s|e]; [discriminate|]. congruence.
Qed.

Lemma usage_error_not_ok {A} u w (a : A) : usage_error u w <> Ok a.
Proof. unfold usage_error. destruct (str_of w); discriminate. Qed.

Lemma update_job_body_transient (w w' : World) :
  _update_job_body w = (Raise FacebookRequestError, w') ->
  w' = called (refresh_call w) w.
Proof.
  destruct (job_truthy w) eqn:Ht.
  - destruct (job_truthy_Some w Ht) as [l Hl].
    rewrite (update_job_body_started w l Ht Hl).
    unfold refresh_call. rewrite Hl. simpl.
    destruct (on_api_get _ _); intros [= <-]; reflexivity.
  - rewrite update_job_body_unstarted by assumption.
    intros [= H _]. destruct (usage_error_not_transient _ _ H).
Qed.

Lemma get_result_body_transient (w w' : World) :
  get_result_body w = (Raise FacebookRequestError, w') ->
  w' = called (result_call w) w.
Proof.
  destruct (job_truthy w) eqn:Ht, (failed w) eqn:Hf;
    try (rewrite get_result_body_refused by auto;
         intros [= H _]; destruct (usage_error_not_transient _ _ H)).
  destruct (job_truthy_Some w Ht) as [l Hl].
  rewrite (get_result_body_allowed w l Ht Hf Hl).
  unfold result_call. rewrite Hl. simpl.
  destruct (on_get_result _ _); intros [= <-]; reflexivity.
Qed.

Lemma start_body_transient (w w' : World) :
  start_body w = (Raise FacebookRequestError, w') ->
  w' = called (kickoff_call w) w.
Proof.
  destruct (job_truthy w) eqn:Ht.
  - rewrite start_body_started by assumption.
    intros [= H _]. destruct (usage_error_not_transient _ _ H).
  - rewrite start_body_unstarted by assumption. simpl.
    destruct (on_get_insights _ _) as [d|]; [|intros [= <-]; reflexivity].
    destruct (d !! "report_run_id"); [|discriminate].
    destruct (_params (self w) !! "time_range"); [|discriminate].
    destruct (_params (self w) !! "breakdowns"); discriminate.
Qed.

Lemma refresh_call_frame (w w' : World) :
  self w' = self w -> refresh_call w' = refresh_call w.
Proof. unfold refresh_call. intros ->. reflexivity. Qed.

Lemma result_call_frame (w w' : World) :
  self w' = self w -> result_call w' = result_call w.
Proof. unfold result_call. intros ->. reflexivity. Qed.

Lemma kickoff_call_frame (w w' : World) :
  self w' = self w -> kickoff_call w' = kickoff_call w.
Proof. unfold kickoff_call. intros ->. reflexivity. Qed.

(** ** The retried methods *)

(** [_update_job] on a started job: after [n] failed attempts, fewer
    than [max_tries], the next one is the last; it rebinds the handle if
    it is answered, and it raises if it fails too, which only happens
    when it is attempt number [max_tries]. *)
Lemma update_job_started (w : World) l :
  job_truthy w = true -> _job (self w) = Some l ->
  exists n, (n < max_tries)%nat
    /\ (forall i, (i < n)%nat ->
          on_api_get (api w) (length (calls w) + i) = Fails)
    /\ _update_job w
       = (let w0 := after_failures (CallApiGet l) 0 n w in
          match on_api_get (api w) (length (calls w) + n) with
          | Returns r => (Ok tt, rebound l r (called (CallApiGet l) w0))
          | Fails => (Raise FacebookRequestError, called (CallApiGet l) w0)
          end)
    /\ (on_api_get (api w) (length (calls w) + n) = Fails -> S n = max_tries).
Proof.
  intros Ht Hl.
  destruct (retry_from_last _update_job_body refresh_call
              update_job_body_transient refresh_call_frame
              (pred max_tries) 0 w) as (n & Hn & Heq & Hbefore & Hlast).
  assert (Hc : refresh_call w = CallApiGet l).
  { unfold refresh_call. rewrite Hl. reflexivity. }
  rewrite Hc in *.
  assert (Hbody : forall i,
             _update_job_body (after_failures (CallApiGet l) 0 i w)
             = match on_api_get (api w) (length (calls w) + i) with
               | Returns r =>
                   (Ok tt, rebound l r
                             (called (CallApiGet l)
                                (after_failures (CallApiGet l) 0 i w)))
               | Fails =>
                   (Raise FacebookRequestError,
                    called (CallApiGet l) (after_failures (CallApiGet l) 0 i w))
               end).
  { intros i.
    rewrite (update_job_body_started _ l).
    - rewrite after_failures_calls. reflexivity.
    - rewrite <- Ht. apply job_truthy_frame; reflexivity.
    - exact Hl. }
  exists n. simpl in Hn. split; [unfold max_tries; lia|]. split; [|split].
  - intros i Hi. specialize (Hbefore i Hi). rewrite Hbody in Hbefore.
    destruct (on_api_get _ _); [discriminate | reflexivity].
  - unfold _update_job, backoff_policy. rewrite Heq. apply Hbody.
  - intros Hf. destruct (decide (n < pred max_tries)%nat) as [Hlt|Hge].
    + specialize (Hlast Hlt). rewrite Hbody, Hf in Hlast. destruct Hlast.
      reflexivity.
    + unfold max_tries in *. simpl in *. lia.
Qed.

(** [_update_job] on a job that is not started: the usage error, at the
    first attempt, and nothing changes. *)
Lemma update_job_unstarted (w : World) :
  job_truthy w = false ->
  _update_job w = (usage_error UseNotStarted w, w).
Proof.
  intros Ht. unfold _update_job, backoff_policy. simpl.
  rewrite update_job_body_unstarted by assumption.
  pose proof (usage_error_not_transient (A := unit) UseNotStarted w) as H.
  destruct (usage_error UseNotStarted w) as [a|e]; [reflexivity|].
  destruct e; try reflexivity. congruence.
Qed.

Lemma get_result_refused (w : World) :
  job_truthy w = false \/ failed w = true ->
  get_result w = (usage_error UseNotStartedOrFailed w, w).
Proof.
  intros H. unfold get_result, backoff_policy. simpl.
  rewrite get_result_body_refused by assumption.
  pose proof (usage_error_not_transient (A := dict) UseNotStartedOrFailed w) as Hn.
  destruct (usage_error UseNotStartedOrFailed w) as [a|e]; [reflexivity|].
  destruct e; try reflexivity. congruence.
Qed.

Lemma get_result_allowed (w : World) l :
  job_truthy w = true -> failed w = false -> _job (self w) = Some l ->
  exists n, (n < max_tries)%nat
    /\ (forall i, (i < n)%nat ->
          on_get_result (api w) (length (calls w) + i) = Fails)
    /\ get_result w
       = (let w' := called (CallGetResult l)
                      (after_failures (CallGetResult l) 0 n w) in
          match on_get_result (api w) (length (calls w) + n) with
          | Returns p => (Ok p, w')
          | Fails => (Raise FacebookRequestError, w')
          end)
    /\ (on_get_result (api w) (length (calls w) + n) = Fails -> S n = max_tries).
Proof.
  intros Ht Hfl Hl.
  destruct (retry_from_last get_result_body result_call
              get_result_body_transient result_call_frame
              (pred max_tries) 0 w) as (n & Hn & Heq & Hbefore & Hlast).
  assert (Hc : result_call w = CallGetResult l).
  { unfold result_call. rewrite Hl. reflexivity. }
  rewrite Hc in *.
  assert (Hbody : forall i,
             get_result_body (after_failures (CallGetResult l) 0 i w)
             = let w' := called (CallGetResult l)
                           (after_failures (CallGetResult l) 0 i w) in
               match on_get_result (api w) (length (calls w) + i) with
               | Returns p => (Ok p, w')
               | Fails => (Raise FacebookRequestError, w')
               end).
  { intros i.
    rewrite (get_result_body_allowed _ l).
    - rewrite after_failures_calls. reflexivity.
    - rewrite <- Ht. apply job_truthy_frame; reflexivity.
    - exact Hfl.
    - exact Hl. }
  exists n. simpl in Hn. split; [unfold max_tries; lia|]. split; [|split].
  - intros i Hi. specialize (Hbefore i Hi). rewrite Hbody in Hbefore.
    simpl in Hbefore.
    destruct (on_get_result _ _); [discriminate | reflexivity].
  - unfold get_result, backoff_policy. rewrite Heq. apply Hbody.
  - intros Hf. destruct (decide (n < pred max_tries)%nat) as [Hlt|Hge].
    + specialize (Hlast Hlt). rewrite Hbody in Hlast. simpl in Hlast.
      rewrite Hf in Hlast. destruct Hlast. reflexivity.
    + unfold max_tries in *. simpl in *. lia.
Qed.

Lemma start_started (w : World) :
  job_truthy w = true ->
  start w = (usage_error UseAlreadyStarted w, w).
Proof.
  intros H. unfold start, backoff_policy. simpl.
  rewrite start_body_started by assumption.
  pose proof (usage_error_not_transient (A := unit) UseAlreadyStarted w) as Hn.
  destruct (usage_error UseAlreadyStarted w) as [a|e]; [reflexivity|].
  destruct e; try reflexivity. congruence.
Qed.

Lemma start_unstarted (w : World) :
  job_truthy w = false ->
  exists n, (n < max_tries)%nat
    /\ (forall i, (i < n)%nat ->
          on_get_insights (api w) (length (calls w) + i) = Fails)
    /\ start w = start_body (after_failures (kickoff_call w) 0 n w)
    /\ (on_get_insights (api w) (length (calls w) + n) = Fails ->
        S n = max_tries).
Proof.
  intros Ht.
  destruct (retry_from_last start_body kickoff_call
              start_body_transient kickoff_call_frame
              (pred max_tries) 0 w) as (n & Hn & Heq & Hbefore & Hlast).
  assert (Hbody : forall i,
             on_get_insights (api w) (length (calls w) + i) = Fails <->
             fst (start_body (after_failures (kickoff_call w) 0 i w))
             = Raise FacebookRequestError).
  { intros i. rewrite start_body_unstarted
      by (rewrite <- Ht; apply job_truthy_frame; reflexivity).
    simpl. rewrite length_app, length_replicate.
    destruct (on_get_insights _ _) as [d|]; [|tauto].
    destruct (d !! "report_run_id");
      [destruct (_params (self w) !! "time_range");
       [destruct (_params (self w) !! "breakdowns")|]|];
      simpl; split; discriminate. }
  exists n. simpl in Hn. split; [unfold max_tries; lia|]. split; [|split].
  - intros i Hi. apply Hbody, Hbefore, Hi.
  - exact Heq.
  - intros Hf. destruct (decide (n < pred max_tries)%nat) as [Hlt|Hge].
    + destruct (Hlast Hlt). apply Hbody, Hf.
    + unfold max_tries in *. simpl in *. lia.
Qed.

(** ** [completed] *)

Lemma completed_memoized (w : World) t :
  _finish_time (self w) = Some t -> completed w = (Ok true, w).
Proof. intros Ht. unfold completed, bind, get. rewrite Ht. reflexivity. Qed.

Lemma batch_update_request_pure (w : World) : snd (batch_update_request w) = w.
Proof.
  unfold batch_update_request, bind, get, ret, raise, api_get_pending.
  destruct (_finish_time (self w)), (_job (self w)); reflexivity.
Qed.

(** C2. A job whose [_finish_time] is set answers [completed] with true
    and its world is untouched: no remote call is made. On a started
    job whose [_finish_time] is not set, [completed] makes one status
    refresh through the retry policy: after [n] failed attempts, fewer
    than [max_tries], either the next attempt is answered, the answered
    handle is bound to [_job] once and the result is the transition rule
    evaluated in that world, or it was the last attempt allowed and the
    transient error is raised. *)
Theorem completed_memoized_or_one_refresh (w : World) :
  (forall t, _finish_time (self w) = Some t -> completed w = (Ok true, w))
  /\ (forall l, _finish_time (self w) = None ->
        job_truthy w = true -> _job (self w) = Some l ->
        exists n, (n < max_tries)%nat
          /\ (forall i, (i < n)%nat ->
                on_api_get (api w) (length (calls w) + i) = Fails)
          /\ completed w
             = (let w0 := called (CallApiGet l)
                            (after_failures (CallApiGet l) 0 n w) in
                match on_api_get (api w) (length (calls w) + n) with
                | Returns r => _check_status (rebound l r w0)
                | Fails => (Raise FacebookRequestError, w0)
                end)
          /\ (on_api_get (api w) (length (calls w) + n) = Fails ->
              S n = max_tries)).
Proof.
  split.
  - apply completed_memoized.
  - intros l Hfin Ht Hl.
    destruct (update_job_started w l Ht Hl) as (n & Hn & Hbefore & Heq & Hlast).
    exists n. split; [exact Hn|]. split; [exact Hbefore|]. split; [|exact Hlast].
    unfold completed. unfold bind at 1, get. rewrite Hfin.
    unfold bind. rewrite Heq. simpl.
    destruct (on_api_get (api w) (length (calls w) + n)); reflexivity.
Qed.

Lemma completed_memoized_or_one_refresh_witness :
  (_finish_time (self (Sample.checked (Sample.steady COMPLETED))) = Some 70
   /\ completed (Sample.checked (Sample.steady COMPLETED))
      = (Ok true, Sample.checked (Sample.steady COMPLETED)))
  /\ (_finish_time (self (Sample.started (Sample.steady RUNNING))) = None
      /\ job_truthy (Sample.started (Sample.steady RUNNING)) = true
      /\ _job (self (Sample.started (Sample.steady RUNNING))) = Some 0%nat
      /\ exists n, (n < max_tries)%nat
           /\ completed (Sample.started (Sample.steady RUNNING))
              = _check_status
                  (rebound 0%nat (NewObject (Sample.snapshot 50 RUNNING))
                     (called (CallApiGet 0%nat)
                        (after_failures (CallApiGet 0%nat) 0 n
                           (Sample.started (Sample.steady RUNNING)))))).
Proof.
  assert (Hfin : _finish_time (self (Sample.checked (Sample.steady COMPLETED)))
                 = Some 70) by (vm_compute; reflexivity).
  assert (Hnone : _finish_time (self (Sample.started (Sample.steady RUNNING))) = None)
    by (vm_compute; reflexivity).
  assert (Ht : job_truthy (Sample.started (Sample.steady RUNNING)) = true)
    by (vm_compute; reflexivity).
  assert (Hj : _job (self (Sample.started (Sample.steady RUNNING))) = Some 0%nat)
    by (vm_compute; reflexivity).
  split.
  - split; [exact Hfin|].
    apply (proj1 (completed_memoized_or_one_refresh _) 70 Hfin).
  - split; [exact Hnone|]. split; [exact Ht|]. split; [exact Hj|].
    assert (Hapi : api (Sample.started (Sample.steady RUNNING))
                   = Sample.steady RUNNING) by (vm_compute; reflexivity).
    destruct (proj2 (completed_memoized_or_one_refresh _) 0%nat Hnone Ht Hj)
      as (n & Hn & _ & Heq & _).
    exists n. split; [exact Hn|]. rewrite Heq, Hapi. reflexivity.
Defined.

Lemma str_of_unstarted (w : World) tr bd :
  job_truthy w = false ->
  _params (self w) !! "time_range" = Some tr ->
  _params (self w) !! "breakdowns" = Some bd ->
  str_of w = Ok (mkRepr None tr bd).
Proof.
  intros Ht Htr Hbd.
  unfold str_of, __str__, bind, get, getitem, ret. rewrite Ht, Htr, Hbd.
  reflexivity.
Qed.

(** C10. On a job that was never started ([_job] is [None] and
    [_finish_time] is [None]) [completed] does not return: it raises the
    "not started" usage error, raised by [_update_job] before the status
    is looked at, and the world is untouched. The error message renders
    the job, which reads the time range and the breakdowns out of the
    parameters. *)
Theorem completed_never_started (w : World) tr bd :
  _job (self w) = None ->
  _finish_time (self w) = None ->
  _params (self w) !! "time_range" = Some tr ->
  _params (self w) !! "breakdowns" = Some bd ->
  completed w = (Raise (RuntimeError UseNotStarted (mkRepr None tr bd)), w).
Proof.
  intros Hj Hfin Htr Hbd.
  assert (Ht : job_truthy w = false) by (unfold job_truthy; rewrite Hj; reflexivity).
  unfold completed. unfold bind at 1, get. rewrite Hfin.
  unfold bind. rewrite (update_job_unstarted w Ht).
  unfold usage_error. rewrite (str_of_unstarted w tr bd Ht Htr Hbd). reflexivity.
Qed.

Lemma completed_never_started_witness :
  _job (self (Sample.fresh (Sample.steady RUNNING))) = None
  /\ _finish_time (self (Sample.fresh (Sample.steady RUNNING))) = None
  /\ completed (Sample.fresh (Sample.steady RUNNING))
     = (Raise (RuntimeError UseNotStarted Sample.nobody),
        Sample.fresh (Sample.steady RUNNING)).
Proof.
  split; [reflexivity|]. split; [reflexivity|].
  apply (completed_never_started (Sample.fresh (Sample.steady RUNNING))).
  - reflexivity.
  - reflexivity.
  - vm_compute; reflexivity.
  - vm_compute; reflexivity.
Defined.

(** ** [get_result] *)

(** C6. [get_result] raises its usage error exactly when the job is not
    started ([not self._job]) or its [_failed] flag is set; the error is
    raised at the first attempt, no remote call is made and the world is
    untouched. Otherwise the remote retrieval is issued through the
    retry policy and the payload of the first answered attempt is
    returned; the job's fields and the store stay as they were. The
    hypothesis says that the job can be rendered for the error
    message. *)
Theorem get_result_usage (w : World) who :
  str_of w = Ok who ->
  ((job_truthy w = false \/ failed w = true) <->
   exists u s, fst (get_result w) = Raise (RuntimeError u s))
  /\ (job_truthy w = false \/ failed w = true ->
      get_result w = (Raise (RuntimeError UseNotStartedOrFailed who), w))
  /\ (job_truthy w = true -> failed w = false ->
      exists l n, _job (self w) = Some l /\ (n < max_tries)%nat
        /\ (forall i, (i < n)%nat ->
              on_get_result (api w) (length (calls w) + i) = Fails)
        /\ (on_get_result (api w) (length (calls w) + n) = Fails ->
            S n = max_tries)
        /\ get_result w
           = (let w' := called (CallGetResult l)
                          (after_failures (CallGetResult l) 0 n w) in
              match on_get_result (api w) (length (calls w) + n) with
              | Returns p => (Ok p, w')
              | Fails => (Raise FacebookRequestError, w')
              end)
        /\ self (snd (get_result w)) = self w
        /\ heap (snd (get_result w)) = heap w).
Proof.
  intros Hwho.
  assert (Hrefused : job_truthy w = false \/ failed w = true ->
            get_result w = (Raise (RuntimeError UseNotStartedOrFailed who), w)).
  { intros H. rewrite get_result_refused by assumption.
    unfold usage_error. rewrite Hwho. reflexivity. }
  assert (Hallowed : job_truthy w = true -> failed w = false ->
            exists l n, _job (self w) = Some l /\ (n < max_tries)%nat
              /\ (forall i, (i < n)%nat ->
                    on_get_result (api w) (length (calls w) + i) = Fails)
              /\ (on_get_result (api w) (length (calls w) + n) = Fails ->
                  S n = max_tries)
              /\ get_result w
                 = (let w' := called (CallGetResult l)
                                (after_failures (CallGetResult l) 0 n w) in
                    match on_get_result (api w) (length (calls w) + n) with
                    | Returns p => (Ok p, w')
                    | Fails => (Raise FacebookRequestError, w')
                    end)
              /\ self (snd (get_result w)) = self w
              /\ heap (snd (get_result w)) = heap w).
  { intros Ht Hf. destruct (job_truthy_Some w Ht) as [l Hl].
    destruct (get_result_allowed w l Ht Hf Hl) as (n & Hn & Hbefore & Heq & Hlast).
    exists l, n. repeat (split; [assumption|]).
    rewrite Heq. simpl.
    destruct (on_get_result (api w) (length (calls w) + n)); split; reflexivity. }
  split; [|split; assumption].
  split.
  - intros H. rewrite (Hrefused H). simpl. eauto.
  - intros (u & s & Hr).
    destruct (job_truthy w) eqn:Ht; [|left; reflexivity].
    destruct (failed w) eqn:Hf; [right; reflexivity|].
    destruct (Hallowed eq_refl eq_refl) as (l & n & _ & _ & _ & _ & Heq & _).
    rewrite Heq in Hr. simpl in Hr.
    destruct (on_get_result (api w) (length (calls w) + n)); discriminate.
Qed.

Lemma get_result_usage_witness :
  (str_of (Sample.checked (Sample.steady COMPLETED)) = Ok Sample.who
   /\ job_truthy (Sample.checked (Sample.steady COMPLETED)) = true
   /\ failed (Sample.checked (Sample.steady COMPLETED)) = false
   /\ fst (get_result (Sample.checked (Sample.steady COMPLETED)))
      = Ok (Sample.snapshot 100 COMPLETED))
  /\ (str_of (Sample.checked (Sample.steady FAILED)) = Ok Sample.who
      /\ failed (Sample.checked (Sample.steady FAILED)) = true
      /\ get_result (Sample.checked (Sample.steady FAILED))
         = (Raise (RuntimeError UseNotStartedOrFailed Sample.who),
            Sample.checked (Sample.steady FAILED))).
Proof.
  assert (H1 : str_of (Sample.checked (Sample.steady COMPLETED)) = Ok Sample.who)
    by (vm_compute; reflexivity).
  assert (H2 : str_of (Sample.checked (Sample.steady FAILED)) = Ok Sample.who)
    by (vm_compute; reflexivity).
  assert (Ht : job_truthy (Sample.checked (Sample.steady COMPLETED)) = true)
    by (vm_compute; reflexivity).
  assert (Hok : failed (Sample.checked (Sample.steady COMPLETED)) = false)
    by (vm_compute; reflexivity).
  assert (Hf : failed (Sample.checked (Sample.steady FAILED)) = true)
    by (vm_compute; reflexivity).
  split.
  - split; [exact H1|]. split; [exact Ht|]. split; [exact Hok|].
    destruct (proj2 (proj2 (get_result_usage _ _ H1)) Ht Hok)
      as (l & n & _ & _ & _ & _ & Heq & _).
    rewrite Heq. reflexivity.
  - split; [exact H2|]. split; [exact Hf|].
    apply (proj1 (proj2 (get_result_usage _ _ H2))). right. exact Hf.
Defined.

(** ** [restart] *)

Lemma str_of_not_usage (w : World) u s : str_of w <> Raise (RuntimeError u s).
Proof.
  unfold str_of, __str__, bind, get, job_getitem, getitem, ret, raise.
  destruct (job_truthy w), (_job (self w)) as [l|];
    try destruct (obj w l !! "report_run_id");
    destruct (_params (self w) !! "time_range");
    destruct (_params (self w) !! "breakdowns"); discriminate.
Qed.

(** [start] on a job that is not started raises no usage error. *)
Lemma start_unstarted_no_usage (w : World) u s :
  job_truthy w = false -> fst (start w) <> Raise (RuntimeError u s).
Proof.
  intros Ht. destruct (start_unstarted w Ht) as (n & _ & _ & Heq & _).
  rewrite Heq, start_body_unstarted
    by (rewrite <- Ht; apply job_truthy_frame; reflexivity).
  simpl. destruct (on_get_insights _ _) as [d|]; [|discriminate].
  destruct (d !! "report_run_id"); [|discriminate].
  destruct (_params (self w) !! "time_range"); [|discriminate].
  destruct (_params (self w) !! "breakdowns"); discriminate.
Qed.

(** C4. [restart] raises its usage error exactly when the job is not
    started ([not self._job]) or [_failed] is false, and then the world,
    hence every field of the job, is untouched. When the job is started
    and failed, [restart] clears [_job], [_failed], [_start_time] and
    [_finish_time] and goes on exactly as [start] does from that cleared
    job, logging the restart once [start] has returned. The hypothesis
    says that the job can be rendered for the error message. *)
Theorem restart_usage (w : World) who :
  str_of w = Ok who ->
  ((job_truthy w = false \/ failed w = false) <->
   exists u s, fst (restart w) = Raise (RuntimeError u s))
  /\ (job_truthy w = false \/ failed w = false ->
      restart w = (Raise (RuntimeError UseOnlyFailedRestart who), w))
  /\ (job_truthy w = true -> failed w = true ->
      restart w
      = (do _ <- start; do s <- __str__; logger_info (LogRestarted s)) (cleared w)
      /\ self (cleared w) = AsyncJob_init (_params (self w))
      /\ heap (cleared w) = heap w).
Proof.
  intros Hwho.
  assert (Hrefused : job_truthy w = false \/ failed w = false ->
            restart w = (Raise (RuntimeError UseOnlyFailedRestart who), w)).
  { intros H. unfold restart. unfold bind at 1, get.
    assert (negb (job_truthy w) || negb (failed w) = true) as ->.
    { destruct H as [-> | ->]; [reflexivity | apply orb_true_r]. }
    rewrite raise_usage. unfold usage_error. rewrite Hwho. reflexivity. }
  assert (Hallowed : job_truthy w = true -> failed w = true ->
            restart w
            = (do _ <- start; do s <- __str__; logger_info (LogRestarted s))
                (cleared w)).
  { intros Ht Hf. unfold restart. unfold bind at 1, get.
    rewrite Ht, Hf. reflexivity. }
  split; [|split; [exact Hrefused|]].
  - split.
    + intros H. rewrite (Hrefused H). simpl. eauto.
    + intros (u & s & Hr).
      destruct (job_truthy w) eqn:Ht; [|left; reflexivity].
      destruct (failed w) eqn:Hf; [|right; reflexivity].
      exfalso. rewrite (Hallowed eq_refl eq_refl) in Hr.
      assert (Hc : job_truthy (cleared w) = false) by reflexivity.
      pose proof (start_unstarted_no_usage (cleared w) u s Hc) as Hs.
      unfold bind in Hr. destruct (start (cleared w)) as [[[]|e] w1].
      * rewrite str_pure in Hr.
        pose proof (str_of_not_usage w1 u s) as Hn.
        destruct (str_of w1); simpl in Hr; [discriminate|]. congruence.
      * simpl in Hr, Hs. congruence.
  - intros Ht Hf. split; [exact (Hallowed Ht Hf)|]. split; reflexivity.
Qed.

Lemma restart_usage_witness :
  (str_of (Sample.checked (Sample.steady COMPLETED)) = Ok Sample.who
   /\ failed (Sample.checked (Sample.steady COMPLETED)) = false
   /\ restart (Sample.checked (Sample.steady COMPLETED))
      = (Raise (RuntimeError UseOnlyFailedRestart Sample.who),
         Sample.checked (Sample.steady COMPLETED)))
  /\ (str_of (Sample.checked (Sample.steady FAILED)) = Ok Sample.who
      /\ job_truthy (Sample.checked (Sample.steady FAILED)) = true
      /\ failed (Sample.checked (Sample.steady FAILED)) = true
      /\ fst (restart (Sample.checked (Sample.steady FAILED))) = Ok tt
      /\ _job (self (snd (restart (Sample.checked (Sample.steady FAILED)))))
         = Some 2%nat
      /\ _failed (self (snd (restart (Sample.checked (Sample.steady FAILED)))))
         = false
      /\ _finish_time (self (snd (restart (Sample.checked (Sample.steady FAILED)))))
         = None).
Proof.
  assert (H1 : str_of (Sample.checked (Sample.steady COMPLETED)) = Ok Sample.who)
    by (vm_compute; reflexivity).
  assert (H2 : str_of (Sample.checked (Sample.steady FAILED)) = Ok Sample.who)
    by (vm_compute; reflexivity).
  assert (Hok : failed (Sample.checked (Sample.steady COMPLETED)) = false)
    by (vm_compute; reflexivity).
  assert (Ht : job_truthy (Sample.checked (Sample.steady FAILED)) = true)
    by (vm_compute; reflexivity).
  assert (Hf : failed (Sample.checked (Sample.steady FAILED)) = true)
    by (vm_compute; reflexivity).
  split.
  - split; [exact H1|]. split; [exact Hok|].
    apply (proj1 (proj2 (restart_usage _ _ H1))). right. exact Hok.
  - split; [exact H2|]. split; [exact Ht|]. split; [exact Hf|].
    destruct (proj2 (proj2 (restart_usage _ _ H2)) Ht Hf) as (Heq & _ & _).
    rewrite Heq. vm_compute. repeat split.
Defined.

(** ** The retry policy around the three remote calls *)

Lemma start_bounded_and_clean (w : World) : bounded_and_clean w (start w).
Proof.
  unfold bounded_and_clean. destruct (job_truthy w) eqn:Ht.
  - rewrite start_started by assumption. simpl. split; [lia|].
    intros H. destruct (usage_error_not_transient _ _ H).
  - destruct (start_unstarted w Ht) as (n & Hn & _ & Heq & Hlast).
    rewrite Heq, start_body_unstarted
      by (rewrite <- Ht; apply job_truthy_frame; reflexivity).
    simpl. rewrite ?length_app, ?length_replicate in *.
    destruct (on_get_insights (api w) (length (calls w) + n)) as [d|].
    + destruct (d !! "report_run_id");
        [destruct (_params (self w) !! "time_range");
         [destruct (_params (self w) !! "breakdowns")|]|];
        simpl; rewrite ?length_app, ?length_replicate; simpl;
        (split; [unfold max_tries in *; lia | discriminate]).
    + simpl. rewrite ?length_app, ?length_replicate. simpl.
      specialize (Hlast eq_refl). split; [lia|]. intros _. repeat split. lia.
Qed.

Lemma update_job_bounded_and_clean (w : World) :
  bounded_and_clean w (_update_job w).
Proof.
  unfold bounded_and_clean. destruct (job_truthy w) eqn:Ht.
  - destruct (job_truthy_Some w Ht) as [l Hl].
    destruct (update_job_started w l Ht Hl) as (n & Hn & _ & Heq & Hlast).
    rewrite Heq. simpl.
    destruct (on_api_get (api w) (length (calls w) + n)) as [[d|d]|];
      simpl; rewrite ?length_app, ?length_replicate; simpl;
      try (split; [unfold max_tries in *; lia | discriminate]).
    specialize (Hlast eq_refl). split; [lia|]. intros _. repeat split. lia.
  - rewrite update_job_unstarted by assumption. simpl. split; [lia|].
    intros H. destruct (usage_error_not_transient _ _ H).
Qed.

Lemma get_result_bounded_and_clean (w : World) :
  bounded_and_clean w (get_result w).
Proof.
  unfold bounded_and_clean.
  destruct (job_truthy w) eqn:Ht, (failed w) eqn:Hf;
    try (rewrite get_result_refused by auto; simpl; split; [lia|];
         intros H; destruct (usage_error_not_transient _ _ H)).
  destruct (job_truthy_Some w Ht) as [l Hl].
  destruct (get_result_allowed w l Ht Hf Hl) as (n & Hn & _ & Heq & Hlast).
  rewrite Heq. simpl.
  destruct (on_get_result (api w) (length (calls w) + n)) as [p|];
    simpl; rewrite ?length_app, ?length_replicate; simpl;
    try (split; [unfold max_tries in *; lia | discriminate]).
  specialize (Hlast eq_refl). split; [lia|]. intros _. repeat split. lia.
Qed.

(** C9. Each of the three retried methods ([start], the status refresh
    [_update_job], [get_result]) makes at most [max_tries] = 5 remote
    calls, one per attempt; if it ends in the transient error then
    exactly 5 attempts were made and the job's fields ([_job],
    [_finish_time], [_failed], and the others) and the store of handles
    are what they were before the call; and if the service fails the
    next 5 calls, a method whose precondition holds does end in the
    transient error. *)
Theorem retry_bounded_and_clean (w : World) :
  max_tries = 5%nat
  /\ bounded_and_clean w (start w)
  /\ bounded_and_clean w (_update_job w)
  /\ bounded_and_clean w (get_result w)
  /\ ((forall i, (i < max_tries)%nat ->
         on_get_insights (api w) (length (calls w) + i) = Fails) ->
      job_truthy w = false ->
      start w = (Raise FacebookRequestError, given_up (kickoff_call w) w))
  /\ ((forall i, (i < max_tries)%nat ->
         on_api_get (api w) (length (calls w) + i) = Fails) ->
      job_truthy w = true ->
      _update_job w = (Raise FacebookRequestError, given_up (refresh_call w) w))
  /\ ((forall i, (i < max_tries)%nat ->
         on_get_result (api w) (length (calls w) + i) = Fails) ->
      job_truthy w = true -> failed w = false ->
      get_result w = (Raise FacebookRequestError, given_up (result_call w) w)).
Proof.
  split; [reflexivity|].
  split; [apply start_bounded_and_clean|].
  split; [apply update_job_bounded_and_clean|].
  split; [apply get_result_bounded_and_clean|].
  split; [|split].
  - intros Hdown Ht.
    destruct (start_unstarted w Ht) as (n & Hn & _ & Heq & Hlast).
    specialize (Hlast (Hdown n Hn)). injection Hlast as ->.
    rewrite Heq, start_body_unstarted
      by (rewrite <- Ht; apply job_truthy_frame; reflexivity).
    simpl. rewrite length_app. simpl.
    rewrite (Hdown 4%nat) by (unfold max_tries; lia). reflexivity.
  - intros Hdown Ht. destruct (job_truthy_Some w Ht) as [l Hl].
    destruct (update_job_started w l Ht Hl) as (n & Hn & _ & Heq & Hlast).
    specialize (Hlast (Hdown n Hn)). injection Hlast as ->.
    rewrite Heq. simpl. rewrite (Hdown 4%nat) by (unfold max_tries; lia).
    unfold given_up, refresh_call. rewrite Hl. reflexivity.
  - intros Hdown Ht Hf. destruct (job_truthy_Some w Ht) as [l Hl].
    destruct (get_result_allowed w l Ht Hf Hl) as (n & Hn & _ & Heq & Hlast).
    specialize (Hlast (Hdown n Hn)). injection Hlast as ->.
    rewrite Heq. simpl. rewrite (Hdown 4%nat) by (unfold max_tries; lia).
    unfold given_up, result_call. rewrite Hl. reflexivity.
Qed.

Lemma retry_bounded_and_clean_witness :
  job_truthy (Sample.fresh Sample.down) = false
  /\ fst (start (Sample.fresh Sample.down)) = Raise FacebookRequestError
  /\ length (calls (snd (start (Sample.fresh Sample.down)))) = 5%nat
  /\ clock (snd (start (Sample.fresh Sample.down))) = 75
  /\ self (snd (start (Sample.fresh Sample.down))) = self (Sample.fresh Sample.down).
Proof.
  split; [reflexivity|].
  destruct (retry_bounded_and_clean (Sample.fresh Sample.down))
    as (_ & _ & _ & _ & Hstart & _).
  rewrite Hstart; [|intros; reflexivity|reflexivity].
  repeat split.
Defined.

(** ** Every outcome of [_check_status] *)

(** [_check_status] either raises while reading the handle or rendering
    the job, leaving the world untouched, or logs the progress line and
    applies the rule to the status it read. *)
Lemma check_status_cases (w : World) :
  (exists e, _check_status w = (Raise e, w))
  \/ (exists l pct st who,
        _job (self w) = Some l
        /\ obj w l !! "async_percent_completion" = Some pct
        /\ obj w l !! "async_status" = Some st
        /\ str_of w = Ok who
        /\ _check_status w = ruled l st (progress_logged who pct st w)).
Proof.
  unfold _check_status.
  destruct (_job (self w)) as [l|] eqn:Hj.
  2:{ left. exists TypeError. unfold bind at 1, job_getitem. rewrite Hj.
      reflexivity. }
  destruct (obj w l !! "async_percent_completion") as [pct|] eqn:Hpct.
  2:{ left. exists (KeyError "async_percent_completion").
      unfold bind at 1, job_getitem, getitem. rewrite Hj, Hpct. reflexivity. }
  destruct (str_of w) as [who|e] eqn:Hwho.
  2:{ left. exists e. unfold bind at 1, job_getitem, getitem.
      rewrite Hj, Hpct. unfold ret. unfold bind at 1.
      rewrite str_pure, Hwho. reflexivity. }
  destruct (obj w l !! "async_status") as [st|] eqn:Hst.
  2:{ left. exists (KeyError "async_status").
      unfold bind at 1, job_getitem, getitem.
      rewrite Hj, Hpct. unfold ret. unfold bind at 1.
      rewrite str_pure, Hwho. unfold bind at 1. rewrite Hj, Hst. reflexivity. }
  right. exists l, pct, st, who. do 4 (split; [first [reflexivity | assumption]|]).
  unfold bind at 1, job_getitem, getitem. rewrite Hj, Hpct. unfold ret.
  unfold bind at 1. rewrite str_pure, Hwho.
  unfold bind at 1. rewrite Hj, Hst.
  unfold bind at 1, logger_info, modify.
  fold (progress_logged who pct st w).
  unfold bind at 1. simpl. rewrite Hj.
  change (obj (progress_logged who pct st w) l) with (obj w l). rewrite Hst.
  unfold ruled, py_in_statuses. simpl existsb.
  destruct (py_eq_status st COMPLETED); [reflexivity|].
  destruct (py_eq_status st FAILED || (py_eq_status st SKIPPED || false));
    [|reflexivity].
  run_monad. simpl.
  destruct (_start_time (self w)); simpl; [|reflexivity].
  rewrite Hj. reflexivity.
Qed.

(** [_check_status] touches [_finish_time], [_failed] and the log, and
    nothing else. *)
Lemma check_status_frame (w : World) :
  heap (snd (_check_status w)) = heap w
  /\ _job (self (snd (_check_status w))) = _job (self w)
  /\ _params (self (snd (_check_status w))) = _params (self w)
  /\ _start_time (self (snd (_check_status w))) = _start_time (self w)
  /\ calls (snd (_check_status w)) = calls w
  /\ clock (snd (_check_status w)) = clock w
  /\ api (snd (_check_status w)) = api w.
Proof.
  destruct (check_status_cases w) as [[e ->] | (l & pct & st & who & _ & _ & _ & _ & ->)].
  - simpl. tauto.
  - unfold ruled.
    destruct (py_eq_status st COMPLETED); [simpl; tauto|].
    destruct (py_in_statuses st [FAILED; SKIPPED]); [|simpl; tauto].
    simpl. destruct (_start_time (self w)) eqn:Hs; simpl; rewrite ?Hs; tauto.
Qed.

(** ** [batch_update_request] *)

(** C5, as stated, fails on a job that was never started: its
    [_finish_time] is not set, yet no request comes back, since there is
    no handle to build one from. *)
Lemma batch_update_request_never_started :
  _finish_time (self (Sample.fresh (Sample.steady RUNNING))) = None
  /\ batch_update_request (Sample.fresh (Sample.steady RUNNING))
     = (Raise (AttributeError "api_get"), Sample.fresh (Sample.steady RUNNING)).
Proof. split; reflexivity. Qed.

(** C5, amended. [batch_update_request] returns [None] exactly when
    [_finish_time] is set; on a job that holds a handle and whose
    [_finish_time] is not set it returns a deferred status request bound
    to that handle. It makes no remote call and changes nothing. *)
Theorem batch_update_request_spec (w : World) :
  (fst (batch_update_request w) = Ok None <-> _finish_time (self w) <> None)
  /\ (forall l, _finish_time (self w) = None -> _job (self w) = Some l ->
        batch_update_request w = (Ok (Some (mkRequest l)), w)
        /\ req_node (mkRequest l) = l)
  /\ snd (batch_update_request w) = w.
Proof.
  unfold batch_update_request, bind, get, ret, raise, api_get_pending.
  destruct (_finish_time (self w)) as [t|], (_job (self w)) as [l|]; simpl;
    (split; [split; [intros; discriminate || congruence
                    | intros; reflexivity || congruence]
            | split; [intros; split; congruence | reflexivity]]).
Qed.

Lemma batch_update_request_spec_witness :
  (_finish_time (self (Sample.started (Sample.steady RUNNING))) = None
   /\ _job (self (Sample.started (Sample.steady RUNNING))) = Some 0%nat
   /\ batch_update_request (Sample.started (Sample.steady RUNNING))
      = (Ok (Some (mkRequest 0%nat)), Sample.started (Sample.steady RUNNING)))
  /\ (_finish_time (self (Sample.checked (Sample.steady COMPLETED))) <> None
      /\ fst (batch_update_request (Sample.checked (Sample.steady COMPLETED)))
         = Ok None).
Proof.
  assert (Hnone : _finish_time (self (Sample.started (Sample.steady RUNNING))) = None)
    by (vm_compute; reflexivity).
  assert (Hj : _job (self (Sample.started (Sample.steady RUNNING))) = Some 0%nat)
    by (vm_compute; reflexivity).
  assert (H : _finish_time (self (Sample.checked (Sample.steady COMPLETED))) <> None)
    by (vm_compute; discriminate).
  split.
  - split; [exact Hnone|]. split; [exact Hj|].
    apply (proj1 (proj2 (batch_update_request_spec _)) 0%nat Hnone Hj).
  - split; [exact H|].
    apply (proj1 (batch_update_request_spec _)). exact H.
Defined.

(** ** [process_batch_result] *)

(** On a job that holds handle [l], [process_batch_result] writes the
    response into that very object and applies the rule. *)
Lemma process_batch_result_started (w : World) l (response : dict) :
  _job (self w) = Some l ->
  process_batch_result response w
  = (void (fst (_check_status (rebound l (SameObject response) w))),
     snd (_check_status (rebound l (SameObject response) w))).
Proof.
  intros Hl. unfold process_batch_result. unfold bind at 1, get.
  rewrite Hl. run_monad. simpl.
  change (mkWorld _ _ _ _ _ _) with (rebound l (SameObject response) w).
  destruct (_check_status _) as [[b|e] w']; reflexivity.
Qed.

Lemma process_batch_result_unstarted (w : World) (response : dict) :
  _job (self w) = None ->
  process_batch_result response w = (Raise FacebookBadObjectError, w).
Proof.
  intros Hl. unfold process_batch_result. unfold bind at 1, get.
  rewrite Hl. reflexivity.
Qed.

Lemma obj_rebound_same (w : World) l d d0 :
  heap w !! l = Some d0 -> obj (rebound l (SameObject d) w) l = d ∪ d0.
Proof.
  intros Hl. unfold obj. simpl.
  rewrite list_lookup_insert_eq by (apply lookup_lt_Some in Hl; exact Hl).
  simpl. unfold obj. rewrite Hl. reflexivity.
Qed.

Lemma obj_rebound_new (w : World) l d :
  obj (rebound l (NewObject d) w) (length (heap w)) = d.
Proof.
  unfold obj. simpl. rewrite lookup_app_r by lia.
  rewrite Nat.sub_diag. reflexivity.
Qed.

Lemma obj_rebound_new_old (w : World) l l' d d0 :
  heap w !! l' = Some d0 -> obj (rebound l (NewObject d) w) l' = d0.
Proof.
  intros Hl. unfold obj. simpl.
  rewrite lookup_app_l by (apply lookup_lt_Some in Hl; exact Hl).
  rewrite Hl. reflexivity.
Qed.

(** ** How the handle is updated *)

(** C8, as stated, fails on the batch path: after
    [process_batch_result] the job holds the same object as before; that
    object has been written to (it now has a status), and it is not the
    response: it still has the run id, which the response does not
    carry. *)
Lemma process_batch_result_patches_in_place :
  fst (process_batch_result (Sample.status_only 50 RUNNING)
         (Sample.started (Sample.steady RUNNING))) = Ok tt
  /\ _job (self (Sample.started (Sample.steady RUNNING))) = Some 0%nat
  /\ _job (self Sample.polled) = Some 0%nat
  /\ length (heap Sample.polled) = 1%nat
  /\ obj (Sample.started (Sample.steady RUNNING)) 0%nat !! "async_status" = None
  /\ obj Sample.polled 0%nat !! "async_status" = Some (VStr "Job Running")
  /\ Sample.status_only 50 RUNNING !! "report_run_id" = None
  /\ obj Sample.polled 0%nat !! "report_run_id" = Some (VStr "1001")
  /\ obj Sample.polled 0%nat <> Sample.status_only 50 RUNNING
  /\ obj Sample.polled 0%nat <> obj (Sample.started (Sample.steady RUNNING)) 0%nat.
Proof.
  assert (H1 : obj (Sample.started (Sample.steady RUNNING)) 0%nat !! "async_status"
               = None) by (vm_compute; reflexivity).
  assert (H2 : obj Sample.polled 0%nat !! "async_status"
               = Some (VStr "Job Running")) by (vm_compute; reflexivity).
  assert (H3 : Sample.status_only 50 RUNNING !! "report_run_id" = None)
    by (vm_compute; reflexivity).
  assert (H4 : obj Sample.polled 0%nat !! "report_run_id" = Some (VStr "1001"))
    by (vm_compute; reflexivity).
  split; [vm_compute; reflexivity|].
  split; [vm_compute; reflexivity|].
  split; [vm_compute; reflexivity|].
  split; [vm_compute; reflexivity|].
  do 4 (split; [assumption|]).
  split; intros E.
  - rewrite E, H3 in H4. discriminate.
  - rewrite E, H1 in H2. discriminate.
Qed.

(** C8, amended. On the direct path [_update_job] binds [_job] to the
    handle the status call returned: a new object holding the snapshot,
    the prior object being left as it was, or the prior object itself
    with the snapshot written into it. On the batch path
    [process_batch_result] always keeps the prior object and writes the
    response into it: the fields of the response are overwritten, every
    other field of the object is retained, and no other object is
    touched; this holds whether or not the status check that follows
    raises. *)
Theorem handle_update_paths (w : World) l d0 :
  _job (self w) = Some l ->
  heap w !! l = Some d0 ->
  (forall response,
      let w' := snd (process_batch_result response w) in
      _job (self w') = Some l
      /\ obj w' l = response ∪ d0
      /\ (forall k, obj w' l !! k
                    = match response !! k with
                      | Some v => Some v
                      | None => d0 !! k
                      end)
      /\ length (heap w') = length (heap w)
      /\ (forall l', l' <> l -> heap w' !! l' = heap w !! l'))
  /\ (forall w', _update_job w = (Ok tt, w') ->
      exists n r,
        on_api_get (api w) (length (calls w) + n) = Returns r
        /\ match r with
           | NewObject d =>
               _job (self w') = Some (length (heap w))
               /\ obj w' (length (heap w)) = d
               /\ obj w' l = d0
           | SameObject d =>
               _job (self w') = Some l /\ obj w' l = d ∪ d0
           end).
Proof.
  intros Hl Hd0. split.
  - intros response w'. subst w'.
    rewrite (process_batch_result_started w l response Hl). cbn [snd].
    destruct (check_status_frame (rebound l (SameObject response) w))
      as (Hheap & Hjob & _).
    assert (Hobj : obj (snd (_check_status (rebound l (SameObject response) w))) l
                   = response ∪ d0).
    { unfold obj at 1. rewrite Hheap.
      apply (obj_rebound_same w l response d0 Hd0). }
    split; [rewrite Hjob; reflexivity|].
    split; [exact Hobj|].
    split; [|split].
    + intros k. rewrite Hobj, lookup_union.
      destruct (response !! k), (d0 !! k); reflexivity.
    + rewrite Hheap. simpl. apply length_insert.
    + intros l' Hne. rewrite Hheap. simpl.
      apply list_lookup_insert_ne. congruence.
  - intros w' Hup.
    assert (Ht : job_truthy w = true).
    { destruct (job_truthy w) eqn:Ht; [reflexivity|].
      rewrite (update_job_unstarted w Ht) in Hup.
      injection Hup as Hup _. destruct (usage_error_not_ok _ _ _ Hup). }
    destruct (update_job_started w l Ht Hl) as (n & _ & _ & Heq & _).
    rewrite Heq in Hup. simpl in Hup.
    destruct (on_api_get (api w) (length (calls w) + n)) as [r|] eqn:Hr;
      [|discriminate].
    exists n, r. split; [exact Hr|].
    injection Hup as <-.
    destruct r as [d|d].
    + split; [reflexivity|]. split.
      * apply (obj_rebound_new (called (CallApiGet l)
                                  (after_failures (CallApiGet l) 0 n w)) l d).
      * apply (obj_rebound_new_old
                 (called (CallApiGet l) (after_failures (CallApiGet l) 0 n w))
                 l l d d0 Hd0).
    + split; [reflexivity|].
      apply (obj_rebound_same
               (called (CallApiGet l) (after_failures (CallApiGet l) 0 n w))
               l d d0 Hd0).
Qed.

Lemma handle_update_paths_witness :
  _job (self (Sample.started (Sample.steady RUNNING))) = Some 0%nat
  /\ heap (Sample.started (Sample.steady RUNNING)) !! 0%nat = Some Sample.created
  /\ _job (self Sample.polled) = Some 0%nat
  /\ obj Sample.polled 0%nat = Sample.status_only 50 RUNNING ∪ Sample.created.
Proof.
  assert (Hj : _job (self (Sample.started (Sample.steady RUNNING))) = Some 0%nat)
    by (vm_compute; reflexivity).
  assert (Hh : heap (Sample.started (Sample.steady RUNNING)) !! 0%nat
               = Some Sample.created) by (vm_compute; reflexivity).
  split; [exact Hj|]. split; [exact Hh|].
  destruct (proj1 (handle_update_paths _ 0%nat Sample.created Hj Hh)
              (Sample.status_only 50 RUNNING)) as (Hj' & Ho & _).
  split; [exact Hj' | exact Ho].
Defined.

(** ** The batch path against the direct path *)

(** [_check_status] on a handle that carries the percentage and the
    status. *)
Lemma check_status_read (w : World) l pct st :
  _job (self w) = Some l ->
  obj w l !! "async_percent_completion" = Some pct ->
  obj w l !! "async_status" = Some st ->
  _check_status w
  = match str_of w with
    | Ok who => ruled l st (progress_logged who pct st w)
    | Raise e => (Raise e, w)
    end.
Proof.
  intros Hj Hpct Hst. unfold _check_status.
  unfold bind at 1, job_getitem, getitem. rewrite Hj, Hpct. unfold ret.
  unfold bind at 1. rewrite str_pure.
  destruct (str_of w) as [who|e]; [|reflexivity].
  unfold bind at 1. rewrite Hj, Hst.
  unfold bind at 1, logger_info, modify.
  fold (progress_logged who pct st w).
  unfold bind at 1. simpl. rewrite Hj.
  change (obj (progress_logged who pct st w) l) with (obj w l). rewrite Hst.
  unfold ruled, py_in_statuses. simpl existsb.
  destruct (py_eq_status st COMPLETED); [reflexivity|].
  destruct (py_eq_status st FAILED || (py_eq_status st SKIPPED || false));
    [|reflexivity].
  run_monad. simpl.
  destruct (_start_time (self w)); simpl; [|reflexivity].
  rewrite Hj. reflexivity.
Qed.

(** C3, as stated, fails on a job whose [_finish_time] is already set:
    [completed] returns at once and keeps the finish time, while
    [process_batch_result] applies the response and stamps a new one.
    The job below was found Completed at time 60; at time 70 the direct
    path leaves it as it is, and the batch path, given a response that
    reports Completed again, moves its finish time to 70. *)
Lemma batch_and_direct_differ :
  _finish_time (self Sample.finished_at_60) = Some 60
  /\ clock Sample.finished_at_60 = 70
  /\ completed Sample.finished_at_60 = (Ok true, Sample.finished_at_60)
  /\ fst (process_batch_result (Sample.snapshot 50 COMPLETED)
            Sample.finished_at_60) = Ok tt
  /\ _finish_time
       (self (snd (process_batch_result (Sample.snapshot 50 COMPLETED)
                     Sample.finished_at_60))) = Some 70.
Proof.
  assert (Hfin : _finish_time (self Sample.finished_at_60) = Some 60)
    by (vm_compute; reflexivity).
  split; [exact Hfin|]. split; [vm_compute; reflexivity|].
  split; [apply (completed_memoized _ 60 Hfin)|].
  split; vm_compute; reflexivity.
Qed.

Lemma str_of_started (w : World) l rid :
  _job (self w) = Some l ->
  obj w l !! "report_run_id" = Some rid ->
  str_of w = render (Some rid) (_params (self w)).
Proof.
  intros Hj Hrid.
  assert (Ht : job_truthy w = true).
  { unfold job_truthy. rewrite Hj. apply bool_decide_eq_true.
    intros E. rewrite E, lookup_empty in Hrid. discriminate. }
  unfold str_of, __str__, bind, get, job_getitem, getitem, ret, raise, render.
  rewrite Ht, Hj, Hrid.
  destruct (_params (self w) !! "time_range"); [|reflexivity].
  destruct (_params (self w) !! "breakdowns"); reflexivity.
Qed.

(** Every outcome of [_check_status], by what it reads. *)
Lemma check_status_eq (w : World) :
  _check_status w
  = match _job (self w) with
    | None => (Raise TypeError, w)
    | Some l =>
        match obj w l !! "async_percent_completion" with
        | None => (Raise (KeyError "async_percent_completion"), w)
        | Some pct =>
            match str_of w with
            | Raise e => (Raise e, w)
            | Ok who =>
                match obj w l !! "async_status" with
                | None => (Raise (KeyError "async_status"), w)
                | Some st => ruled l st (progress_logged who pct st w)
                end
            end
        end
    end.
Proof.
  destruct (_job (self w)) as [l|] eqn:Hj.
  2:{ unfold _check_status. unfold bind at 1, job_getitem. rewrite Hj.
      reflexivity. }
  destruct (obj w l !! "async_percent_completion") as [pct|] eqn:Hpct.
  2:{ unfold _check_status. unfold bind at 1, job_getitem, getitem.
      rewrite Hj, Hpct. reflexivity. }
  destruct (obj w l !! "async_status") as [st|] eqn:Hst.
  { apply (check_status_read w l pct st Hj Hpct Hst). }
  unfold _check_status. unfold bind at 1, job_getitem, getitem.
  rewrite Hj, Hpct. unfold ret. unfold bind at 1. rewrite str_pure.
  destruct (str_of w) as [who|e]; [|reflexivity].
  unfold bind at 1. rewrite Hj, Hst. reflexivity.
Qed.

(** [_check_status] does not look at the record of the remote calls. *)
Lemma check_status_calls (w : World) (cs : list call) :
  _check_status (with_calls cs w)
  = (fst (_check_status w), with_calls cs (snd (_check_status w))).
Proof.
  rewrite !check_status_eq.
  change (_job (self (with_calls cs w))) with (_job (self w)).
  destruct (_job (self w)) as [l|]; [|reflexivity].
  change (obj (with_calls cs w) l) with (obj w l).
  destruct (obj w l !! "async_percent_completion") as [pct|]; [|reflexivity].
  rewrite (str_of_frame w (with_calls cs w)) by reflexivity.
  destruct (str_of w) as [who|e]; [|reflexivity].
  destruct (obj w l !! "async_status") as [st|]; [|reflexivity].
  unfold ruled.
  destruct (py_eq_status st COMPLETED); [reflexivity|].
  destruct (py_in_statuses st [FAILED; SKIPPED]); [|reflexivity].
  simpl. destruct (_start_time (self w)); reflexivity.
Qed.

(** [_update_job] when the service answers attempt number [n]. *)
Lemma update_job_answered (w : World) l n r :
  job_truthy w = true -> _job (self w) = Some l ->
  (n < max_tries)%nat ->
  (forall i, (i < n)%nat ->
     on_api_get (api w) (length (calls w) + i) = Fails) ->
  on_api_get (api w) (length (calls w) + n) = Returns r ->
  _update_job w
  = (Ok tt,
     rebound l r (called (CallApiGet l) (after_failures (CallApiGet l) 0 n w))).
Proof.
  intros Ht Hl Hn Hbefore Hr.
  destruct (update_job_started w l Ht Hl) as (m & Hm & Hbefore' & Heq & Hlast).
  assert (E : m = n).
  { destruct (lt_eq_lt_dec m n) as [[Hlt | Heq'] | Hgt].
    - specialize (Hlast (Hbefore m Hlt)). unfold max_tries in *. lia.
    - exact Heq'.
    - rewrite (Hbefore' n Hgt) in Hr. discriminate. }
  subst m. rewrite Heq, Hr. reflexivity.
Qed.

(** C3, amended. Take a job whose [_finish_time] is not set, and a
    snapshot [d], whatever fields it carries. If the job holds a handle
    and the status call of [completed] is answered at attempt number [n],
    within what the retry policy allows, by updating the handle in place
    with [d], then [process_batch_result] given [d] at the time of that
    answer raises or returns as [completed] does, and both end with the
    same job fields, the same store, the same log and the same clock;
    the record of remote calls differs by the one status call. When the
    first attempt is answered ([n = 0]) the time of the answer is the
    time of the call. If the job holds no handle, both paths leave it
    as it is. *)
Theorem batch_matches_direct (w : World) (d : dict) :
  _finish_time (self w) = None ->
  (forall l n,
     _job (self w) = Some l ->
     job_truthy w = true ->
     (n < max_tries)%nat ->
     (forall i, (i < n)%nat ->
        on_api_get (api w) (length (calls w) + i) = Fails) ->
     on_api_get (api w) (length (calls w) + n) = Returns (SameObject d) ->
     let answered := after_failures (CallApiGet l) 0 n w in
     let batch := process_batch_result d answered in
     let direct := completed w in
     fst batch = void (fst direct)
     /\ self (snd batch) = self (snd direct)
     /\ heap (snd batch) = heap (snd direct)
     /\ log (snd batch) = log (snd direct)
     /\ clock (snd batch) = clock (snd direct)
     /\ calls (snd direct) = (calls (snd batch) ++ [CallApiGet l])%list
     /\ (n = 0%nat -> answered = w))
  /\ (_job (self w) = None ->
      snd (process_batch_result d w) = w /\ snd (completed w) = w).
Proof.
  intros Hfin. split.
  - intros l n Hl Ht Hn Hbefore Hr answered batch direct.
    set (wB := rebound l (SameObject d) answered).
    assert (Hbatch : batch
                     = (void (fst (_check_status wB)), snd (_check_status wB))).
    { apply process_batch_result_started. exact Hl. }
    assert (Hdirect : direct
                      = _check_status
                          (with_calls (calls answered ++ [CallApiGet l]) wB)).
    { subst direct. unfold completed. unfold bind at 1, get. rewrite Hfin.
      unfold bind. rewrite (update_job_answered w l n _ Ht Hl Hn Hbefore Hr).
      reflexivity. }
    rewrite check_status_calls in Hdirect.
    destruct (check_status_frame wB) as (_ & _ & _ & _ & Hcalls & _).
    rewrite Hbatch, Hdirect. cbn [fst snd].
    do 5 (split; [reflexivity|]). split.
    + simpl. rewrite Hcalls. reflexivity.
    + intros ->. apply after_failures_O.
  - intros Hl. split.
    + rewrite (process_batch_result_unstarted w d Hl). reflexivity.
    + assert (Ht : job_truthy w = false)
        by (unfold job_truthy; rewrite Hl; reflexivity).
      unfold completed. unfold bind at 1, get. rewrite Hfin. unfold bind.
      rewrite (update_job_unstarted w Ht).
      destruct (usage_error UseNotStarted w) as [a|e] eqn:E; [|reflexivity].
      destruct (usage_error_not_ok _ _ _ E).
Qed.

Lemma batch_matches_direct_witness :
  (_finish_time (self (Sample.started (Sample.merging COMPLETED))) = None
   /\ _job (self (Sample.started (Sample.merging COMPLETED))) = Some 0%nat
   /\ job_truthy (Sample.started (Sample.merging COMPLETED)) = true
   /\ on_api_get (api (Sample.started (Sample.merging COMPLETED)))
        (length (calls (Sample.started (Sample.merging COMPLETED))) + 0)
      = Returns (SameObject (Sample.status_only 50 COMPLETED)))
  /\ fst (process_batch_result (Sample.status_only 50 COMPLETED)
            (Sample.started (Sample.merging COMPLETED)))
     = void (fst (completed (Sample.started (Sample.merging COMPLETED))))
  /\ self (snd (process_batch_result (Sample.status_only 50 COMPLETED)
                  (Sample.started (Sample.merging COMPLETED))))
     = self (snd (completed (Sample.started (Sample.merging COMPLETED))))
  /\ heap (snd (process_batch_result (Sample.status_only 50 COMPLETED)
                  (Sample.started (Sample.merging COMPLETED))))
     = heap (snd (completed (Sample.started (Sample.merging COMPLETED)))).
Proof.
  assert (Hfin : _finish_time (self (Sample.started (Sample.merging COMPLETED)))
                 = None) by (vm_compute; reflexivity).
  assert (Hj : _job (self (Sample.started (Sample.merging COMPLETED)))
               = Some 0%nat) by (vm_compute; reflexivity).
  assert (Ht : job_truthy (Sample.started (Sample.merging COMPLETED)) = true)
    by (vm_compute; reflexivity).
  assert (Ho : on_api_get (api (Sample.started (Sample.merging COMPLETED)))
                 (length (calls (Sample.started (Sample.merging COMPLETED))) + 0)
               = Returns (SameObject (Sample.status_only 50 COMPLETED)))
    by (vm_compute; reflexivity).
  assert (Hn : (0 < max_tries)%nat) by (unfold max_tries; lia).
  assert (Hb : forall i, (i < 0)%nat ->
             on_api_get (api (Sample.started (Sample.merging COMPLETED)))
               (length (calls (Sample.started (Sample.merging COMPLETED))) + i)
             = Fails) by (intros i Hi; lia).
  split; [repeat split; assumption|].
  pose proof (proj1 (batch_matches_direct _ (Sample.status_only 50 COMPLETED) Hfin)
                0%nat 0%nat Hj Ht Hn Hb Ho) as H.
  cbv zeta in H. destruct H as (H1 & H2 & H3 & _ & _ & _ & H7).
  rewrite (H7 eq_refl) in H1, H2, H3.
  split; [exact H1|]. split; [exact H2 | exact H3].
Defined.

(** ** The status invariant *)


(** The rule reads the completion percentage before the status: a
    response that brings a terminal status to a handle without the
    percentage makes [_check_status] raise before it stamps anything, and
    the job is left unfinished with a terminal status in its handle. *)
Lemma status_invariant_needs_percentage :
  let w := Sample.started (Sample.steady RUNNING) in
  let response : dict := {[ "async_status" := VStr (Status_value COMPLETED) ]} in
  _finish_time (self w) = None
  /\ fst (process_batch_result response w)
     = Raise (KeyError "async_percent_completion")
  /\ _finish_time (self (perform (ProcessBatchResult response) w)) = None
  /\ observed (perform (ProcessBatchResult response) w)
     = Some (VStr (Status_value COMPLETED))
  /\ ~ status_invariant (perform (ProcessBatchResult response) w).
Proof.
  intros w response.
  assert (Hfin : _finish_time (self (perform (ProcessBatchResult response) w))
                 = None) by (vm_compute; reflexivity).
  assert (Hobs : observed (perform (ProcessBatchResult response) w)
                 = Some (VStr (Status_value COMPLETED)))
    by (vm_compute; reflexivity).
  split; [vm_compute; reflexivity|]. split; [vm_compute; reflexivity|].
  split; [exact Hfin|]. split; [exact Hobs|].
  intros [Hinv _].
  assert (Hs : is_Some (_finish_time (self (perform (ProcessBatchResult response) w)))).
  { apply Hinv. exists (VStr (Status_value COMPLETED)).
    split; [exact Hobs | left; reflexivity]. }
  rewrite Hfin in Hs. destruct Hs as [t Ht]. discriminate.
Qed.

Lemma observed_frame (w w' : World) :
  self w' = self w -> heap w' = heap w -> observed w' = observed w.
Proof. intros Hs Hh. unfold observed, obj. rewrite Hs, Hh. reflexivity. Qed.



















(** A handle that carries the run id and the completion percentage, in a
    job whose parameters name the time range and the breakdowns, can be
    read by the rule, whatever else it carries. *)
Lemma full_handle_readable (w : World) :
  (forall l, _job (self w) = Some l ->
     is_Some (obj w l !! "report_run_id")
     /\ is_Some (obj w l !! "async_percent_completion")) ->
  is_Some (_params (self w) !! "time_range") ->
  is_Some (_params (self w) !! "breakdowns") ->
  rule_can_read w.
Proof.
  intros Hfull [tr Htr] [bd Hbd] l st Hl _ _.
  destruct (Hfull l Hl) as [[rid Hrid] Hpct].
  split; [exact Hpct|].
  rewrite (str_of_started w l rid Hl Hrid). unfold render.
  rewrite Htr, Hbd. eauto.
Qed.





(** ** A held handle comes with a start time *)

Lemma stamped_frame (w w' : World) :
  self w' = self w -> stamped w -> stamped w'.
Proof. unfold stamped. intros ->. tauto. Qed.

Lemma stamped_after_check (w : World) : stamped w -> stamped (snd (_check_status w)).
Proof.
  destruct (check_status_frame w) as (_ & Hj & _ & Hs & _).
  unfold stamped. rewrite Hj, Hs. tauto.
Qed.

Lemma stamped_rebound (w : World) l r :
  _job (self w) = Some l -> stamped w -> stamped (rebound l r w).
Proof.
  intros Hl Hst _. destruct r; simpl; apply Hst; rewrite Hl; discriminate.
Qed.

Lemma start_stamped (w : World) : stamped w -> stamped (perform Start w).
Proof.
  intros Hst. simpl. destruct (job_truthy w) eqn:Ht.
  - rewrite start_started by assumption. exact Hst.
  - destruct (start_unstarted w Ht) as (n & _ & _ & Heq & _).
    rewrite Heq, start_body_unstarted
      by (rewrite <- Ht; apply job_truthy_frame; reflexivity).
    cbv zeta.
    destruct (on_get_insights _ _) as [d|];
      [|revert Hst; apply stamped_frame; reflexivity].
    destruct (d !! "report_run_id");
      [destruct (_params _ !! "time_range");
       [destruct (_params _ !! "breakdowns")|]|];
      intros _; discriminate.
Qed.

Lemma perform_stamped (o : operation) (w : World) :
  stamped w -> stamped (perform o w).
Proof.
  intros Hst. destruct o.
  - apply start_stamped, Hst.
  - simpl. unfold restart. unfold bind at 1, get.
    destruct (negb (job_truthy w) || negb (failed w)).
    + rewrite raise_usage. exact Hst.
    + change ((do _ <- modify (with_self (set_job None));
               do _ <- modify (with_self (set_failed false));
               do _ <- modify (with_self (set_start_time None));
               do _ <- modify (with_self (set_finish_time None));
               do _ <- start;
               do s <- __str__;
               logger_info (LogRestarted s)) w)
        with ((do _ <- start; do s <- __str__; logger_info (LogRestarted s))
                (cleared w)).
      assert (Hs : stamped (perform Start (cleared w))).
      { apply start_stamped. intros H. destruct H. reflexivity. }
      simpl in Hs. unfold bind.
      destruct (start (cleared w)) as [[[]|e] w1]; [|exact Hs].
      rewrite str_pure. destruct (str_of w1); [|exact Hs].
      simpl. revert Hs. apply stamped_frame; reflexivity.
  - simpl. destruct (_finish_time (self w)) as [t|] eqn:Hfin.
    { rewrite (completed_memoized w t Hfin). exact Hst. }
    unfold completed. unfold bind at 1, get. rewrite Hfin. unfold bind.
    destruct (job_truthy w) eqn:Ht.
    + destruct (job_truthy_Some w Ht) as [l Hl].
      destruct (update_job_started w l Ht Hl) as (n & _ & _ & Heq & _).
      rewrite Heq. simpl.
      destruct (on_api_get (api w) (length (calls w) + n)) as [r|].
      * set (w0 := called _ _).
        pose proof (stamped_after_check (rebound l r w0)
                      (stamped_rebound w0 l r Hl
                         (stamped_frame w w0 eq_refl Hst))) as H.
        destruct (_check_status (rebound l r w0)) as [[b|e] w']; exact H.
      * simpl. revert Hst. apply stamped_frame. reflexivity.
    + rewrite (update_job_unstarted w Ht). simpl.
      destruct (usage_error UseNotStarted w) as [a|e] eqn:E; simpl.
      * destruct (usage_error_not_ok _ _ _ E).
      * exact Hst.
  - simpl. rewrite batch_update_request_pure. exact Hst.
  - simpl. destruct (_job (self w)) as [l|] eqn:Hl.
    + rewrite (process_batch_result_started w l response Hl). cbn [snd].
      apply stamped_after_check, stamped_rebound; assumption.
    + rewrite (process_batch_result_unstarted w response Hl). exact Hst.
  - simpl.
    destruct (job_truthy w) eqn:Ht, (failed w) eqn:Hf;
      try (rewrite get_result_refused by auto; exact Hst).
    destruct (job_truthy_Some w Ht) as [l Hl].
    destruct (get_result_allowed w l Ht Hf Hl) as (n & _ & _ & Heq & _).
    rewrite Heq. simpl.
    destruct (on_get_result (api w) (length (calls w) + n));
      revert Hst; apply stamped_frame; reflexivity.
Qed.

(** Whatever the service answers and whatever the caller does, a job
    that holds a handle has a start time: the rule never meets a failure
    status without being able to log the elapsed seconds. *)
Lemma reachable_stamped (remote : Remote) (params : dict) (w : World) :
  reachable any_use remote params w -> stamped w.
Proof.
  induction 1 as [now | w o _ IH _ | w dt _ IH].
  - intros H. destruct H. reflexivity.
  - apply perform_stamped, IH.
  - revert IH. apply stamped_frame. reflexivity.
Qed.

(** * Further properties of the job *)

(** ** [start] *)

(** On a started job [start] makes no call and changes nothing; it
    raises its usage error, or whatever rendering the job raises. *)
Lemma start_started_world (w : World) :
  job_truthy w = true -> snd (start w) = w /\ forall a, fst (start w) <> Ok a.
Proof.
  intros Ht. rewrite start_started by assumption. split; [reflexivity|].
  intros a. apply usage_error_not_ok.
Qed.

(** Every way [start] can return normally. *)
Lemma start_ok_inv (w w' : World) :
  start w = (Ok tt, w') ->
  job_truthy w = false
  /\ exists n d job_id time_range breakdowns,
       (n < max_tries)%nat
       /\ (forall i, (i < n)%nat ->
             on_get_insights (api w) (length (calls w) + i) = Fails)
       /\ on_get_insights (api w) (length (calls w) + n) = Returns d
       /\ d !! "report_run_id" = Some job_id
       /\ _params (self w) !! "time_range" = Some time_range
       /\ _params (self w) !! "breakdowns" = Some breakdowns
       /\ w' = with_log (log w ++ [LogCreated job_id time_range breakdowns])
                 (kicked_off d
                    (called (kickoff_call w)
                       (after_failures (kickoff_call w) 0 n w))).
Proof.
  intros Hs. destruct (job_truthy w) eqn:Ht.
  { destruct (start_started_world w Ht) as [_ Hno].
    rewrite Hs in Hno. destruct (Hno tt). reflexivity. }
  split; [reflexivity|].
  destruct (start_unstarted w Ht) as (n & Hn & Hbefore & Heq & _).
  rewrite Heq, start_body_unstarted in Hs
    by (rewrite <- Ht; apply job_truthy_frame; reflexivity).
  cbv zeta in Hs. rewrite after_failures_calls in Hs.
  change (api (after_failures (kickoff_call w) 0 n w)) with (api w) in Hs.
  change (_params (self (after_failures (kickoff_call w) 0 n w)))
    with (_params (self w)) in Hs.
  destruct (on_get_insights (api w) (length (calls w) + n)) as [d|] eqn:Ho;
    [|discriminate].
  destruct (d !! "report_run_id") as [job_id|] eqn:Hid; [|discriminate].
  destruct (_params (self w) !! "time_range") as [tr|] eqn:Htr; [|discriminate].
  destruct (_params (self w) !! "breakdowns") as [bd|] eqn:Hbd; [|discriminate].
  injection Hs as <-.
  exists n, d, job_id, tr, bd.
  do 6 (split; [first [assumption | reflexivity]|]). reflexivity.
Qed.

(** X1. [start] raises a usage error exactly when the job is already
    started ([self._job] is truthy); it is then the "already started"
    error, no remote call is made and the world is untouched. The
    hypothesis says that the job can be rendered for the message. *)
Theorem start_already_started (w : World) who :
  str_of w = Ok who ->
  (job_truthy w = true <-> exists u s, fst (start w) = Raise (RuntimeError u s))
  /\ (job_truthy w = true ->
      start w = (Raise (RuntimeError UseAlreadyStarted who), w)).
Proof.
  intros Hwho.
  assert (H : job_truthy w = true ->
              start w = (Raise (RuntimeError UseAlreadyStarted who), w)).
  { intros Ht. rewrite start_started by assumption.
    unfold usage_error. rewrite Hwho. reflexivity. }
  split; [|exact H]. split.
  - intros Ht. rewrite (H Ht). simpl. eauto.
  - intros (u & s & Hr). destruct (job_truthy w) eqn:Ht; [reflexivity|].
    destruct (start_unstarted_no_usage w u s Ht Hr).
Qed.

Lemma start_already_started_witness :
  str_of (Sample.started (Sample.steady RUNNING)) = Ok Sample.who
  /\ job_truthy (Sample.started (Sample.steady RUNNING)) = true
  /\ start (Sample.started (Sample.steady RUNNING))
     = (Raise (RuntimeError UseAlreadyStarted Sample.who),
        Sample.started (Sample.steady RUNNING)).
Proof.
  assert (H1 : str_of (Sample.started (Sample.steady RUNNING)) = Ok Sample.who)
    by (vm_compute; reflexivity).
  assert (Ht : job_truthy (Sample.started (Sample.steady RUNNING)) = true)
    by (vm_compute; reflexivity).
  split; [exact H1|]. split; [exact Ht|].
  apply (proj2 (start_already_started _ _ H1) Ht).
Defined.

(** X2. When [start] returns, the kickoff call was answered after fewer
    than [max_tries] failed attempts; the job holds a new object with
    the answer, which names the run; the start time is the time of the
    answered attempt, the waits of the failed ones included; one
    "Created" line was logged; [_finish_time], [_failed] and the
    parameters are what they were and no object of the store was
    touched. *)
Theorem start_success (w w' : World) :
  start w = (Ok tt, w') ->
  exists n d job_id,
    (n < max_tries)%nat
    /\ on_get_insights (api w) (length (calls w) + n) = Returns d
    /\ d !! "report_run_id" = Some job_id
    /\ _job (self w') = Some (length (heap w))
    /\ heap w' = (heap w ++ [d])%list
    /\ _start_time (self w') = Some (clock w + waited 0 n)
    /\ clock w' = clock w + waited 0 n
    /\ _finish_time (self w') = _finish_time (self w)
    /\ _failed (self w') = _failed (self w)
    /\ _params (self w') = _params (self w)
    /\ length (calls w') = (length (calls w) + n + 1)%nat
    /\ exists time_range breakdowns,
         log w' = (log w ++ [LogCreated job_id time_range breakdowns])%list.
Proof.
  intros Hs.
  destruct (start_ok_inv w w' Hs)
    as (_ & n & d & job_id & tr & bd & Hn & _ & Ho & Hid & _ & _ & ->).
  exists n, d, job_id. do 3 (split; [assumption|]).
  simpl. rewrite ?length_app, ?length_replicate. simpl.
  repeat split; eauto.
Qed.

Lemma start_success_witness :
  start (Sample.fresh (Sample.steady RUNNING))
  = (Ok tt, perform Start (Sample.fresh (Sample.steady RUNNING)))
  /\ _job (self (perform Start (Sample.fresh (Sample.steady RUNNING))))
     = Some (length (heap (Sample.fresh (Sample.steady RUNNING))))
  /\ _failed (self (perform Start (Sample.fresh (Sample.steady RUNNING))))
     = _failed (self (Sample.fresh (Sample.steady RUNNING))).
Proof.
  assert (Hs : start (Sample.fresh (Sample.steady RUNNING))
               = (Ok tt, perform Start (Sample.fresh (Sample.steady RUNNING))))
    by (vm_compute; reflexivity).
  split; [exact Hs|].
  destruct (start_success _ _ Hs)
    as (n & d & job_id & _ & _ & _ & Hj & _ & _ & _ & _ & Hf & _).
  split; [exact Hj | exact Hf].
Defined.

(** X3. If [start], called on a job that is not started, raises a
    [KeyError], the key is one of the three the log line reads, and the
    kickoff call had been answered: the job is left holding the new
    handle with its start time stamped, although nothing was logged. *)
Theorem start_key_error_leaves_handle (w w' : World) k :
  job_truthy w = false ->
  start w = (Raise (KeyError k), w') ->
  (k = "report_run_id" \/ k = "time_range" \/ k = "breakdowns")
  /\ exists n d,
       on_get_insights (api w) (length (calls w) + n) = Returns d
       /\ _job (self w') = Some (length (heap w))
       /\ heap w' = (heap w ++ [d])%list
       /\ _start_time (self w') = Some (clock w')
       /\ log w' = log w.
Proof.
  intros Ht Hs.
  destruct (start_unstarted w Ht) as (n & Hn & Hbefore & Heq & _).
  rewrite Heq, start_body_unstarted in Hs
    by (rewrite <- Ht; apply job_truthy_frame; reflexivity).
  cbv zeta in Hs. rewrite after_failures_calls in Hs.
  change (api (after_failures (kickoff_call w) 0 n w)) with (api w) in Hs.
  change (_params (self (after_failures (kickoff_call w) 0 n w)))
    with (_params (self w)) in Hs.
  destruct (on_get_insights (api w) (length (calls w) + n)) as [d|] eqn:Ho;
    [|discriminate].
  assert (Hdone : forall k0,
             (Raise (A := unit) (KeyError k0),
              kicked_off d (called (CallGetInsights (_params (self w)))
                              (after_failures (kickoff_call w) 0 n w)))
             = (Raise (KeyError k), w') ->
             k0 = k
             /\ exists n d,
                  on_get_insights (api w) (length (calls w) + n) = Returns d
                  /\ _job (self w') = Some (length (heap w))
                  /\ heap w' = (heap w ++ [d])%list
                  /\ _start_time (self w') = Some (clock w')
                  /\ log w' = log w).
  { intros k0 [= -> <-]. split; [reflexivity|]. exists n, d.
    split; [exact Ho|]. repeat split. }
  destruct (d !! "report_run_id").
  2:{ destruct (Hdone _ Hs) as [<- H]. split; [left; reflexivity | exact H]. }
  destruct (_params (self w) !! "time_range").
  2:{ destruct (Hdone _ Hs) as [<- H].
      split; [right; left; reflexivity | exact H]. }
  destruct (_params (self w) !! "breakdowns").
  2:{ destruct (Hdone _ Hs) as [<- H].
      split; [right; right; reflexivity | exact H]. }
  discriminate.
Qed.

Lemma start_key_error_leaves_handle_witness :
  job_truthy (new_world (mkRemote (fun _ => Returns (Sample.status_only 0 NOT_STARTED))
                           (fun _ => Fails) (fun _ => Fails))
                Sample.params 10) = false
  /\ fst (start (new_world (mkRemote (fun _ => Returns (Sample.status_only 0 NOT_STARTED))
                              (fun _ => Fails) (fun _ => Fails))
                   Sample.params 10)) = Raise (KeyError "report_run_id")
  /\ _job (self (snd (start (new_world
                              (mkRemote (fun _ => Returns (Sample.status_only 0 NOT_STARTED))
                                 (fun _ => Fails) (fun _ => Fails))
                              Sample.params 10)))) = Some 0%nat.
Proof.
  set (w := new_world _ _ _).
  assert (Hs : start w = (Raise (KeyError "report_run_id"), snd (start w)))
    by (vm_compute; reflexivity).
  split; [reflexivity|]. split; [rewrite Hs; reflexivity|].
  destruct (start_key_error_leaves_handle w _ _ eq_refl Hs)
    as (_ & n & d & _ & Hj & _).
  exact Hj.
Defined.

(** The job as rendered once [start] has returned. *)
Lemma started_renders (w w' : World) :
  start w = (Ok tt, w') ->
  job_truthy w' = true /\ exists who, str_of w' = Ok who /\ repr_id who <> None.
Proof.
  intros Hs.
  destruct (start_ok_inv w w' Hs)
    as (_ & n & d & job_id & tr & bd & _ & _ & _ & Hid & Htr & Hbd & ->).
  set (w0 := called _ _).
  assert (Hj : _job (self (with_log (log w ++ [LogCreated job_id tr bd])
                             (kicked_off d w0))) = Some (length (heap w)))
    by reflexivity.
  assert (Ho : obj (with_log (log w ++ [LogCreated job_id tr bd])
                      (kicked_off d w0)) (length (heap w)) = d).
  { unfold obj. simpl. rewrite lookup_app_r by lia.
    rewrite Nat.sub_diag. reflexivity. }
  split.
  - unfold job_truthy. rewrite Hj, Ho. apply bool_decide_eq_true.
    intros E. rewrite E, lookup_empty in Hid. discriminate.
  - exists (mkRepr (Some job_id) tr bd). split; [|discriminate].
    rewrite (str_of_started _ (length (heap w)) job_id Hj)
      by (rewrite Ho; exact Hid).
    unfold render. simpl. rewrite Htr, Hbd. reflexivity.
Qed.

(** X4. [start] cannot be repeated: once it has returned, a second
    [start] raises the "already started" usage error, makes no remote
    call and changes nothing. *)
Theorem start_twice (w w' : World) :
  start w = (Ok tt, w') ->
  exists who, start w' = (Raise (RuntimeError UseAlreadyStarted who), w').
Proof.
  intros Hs. destruct (started_renders w w' Hs) as (Ht & who & Hwho & _).
  exists who. rewrite start_started by assumption.
  unfold usage_error. rewrite Hwho. reflexivity.
Qed.

Lemma start_twice_witness :
  start (Sample.fresh (Sample.steady RUNNING))
  = (Ok tt, perform Start (Sample.fresh (Sample.steady RUNNING)))
  /\ exists who,
       start (perform Start (Sample.fresh (Sample.steady RUNNING)))
       = (Raise (RuntimeError UseAlreadyStarted who),
          perform Start (Sample.fresh (Sample.steady RUNNING))).
Proof.
  assert (Hs : start (Sample.fresh (Sample.steady RUNNING))
               = (Ok tt, perform Start (Sample.fresh (Sample.steady RUNNING))))
    by (vm_compute; reflexivity).
  split; [exact Hs|]. exact (start_twice _ _ Hs).
Defined.

(** ** [completed], call after call *)

Lemma rebound_fields (w : World) l r :
  _finish_time (self (rebound l r w)) = _finish_time (self w)
  /\ _failed (self (rebound l r w)) = _failed (self w)
  /\ _start_time (self (rebound l r w)) = _start_time (self w)
  /\ _params (self (rebound l r w)) = _params (self w)
  /\ _job (self (rebound l r w)) <> None
  /\ calls (rebound l r w) = calls w
  /\ clock (rebound l r w) = clock w
  /\ api (rebound l r w) = api w.
Proof. destruct r; simpl; repeat split; discriminate. Qed.

(** [completed] on a job that is not finished: either the refresh
    raised and the job and the store are untouched, or the handle was
    rebound and the outcome is that of the rule. *)
Lemma completed_unfinished (w : World) :
  _finish_time (self w) = None ->
  ((forall b, fst (completed w) <> Ok b)
   /\ self (snd (completed w)) = self w
   /\ heap (snd (completed w)) = heap w)
  \/ exists l r w0,
       _job (self w) = Some l
       /\ self w0 = self w /\ heap w0 = heap w /\ api w0 = api w
       /\ completed w = _check_status (rebound l r w0).
Proof.
  intros Hfin.
  assert (Hc : completed w
               = match _update_job w with
                 | (Ok _, w1) => _check_status w1
                 | (Raise e, w1) => (Raise e, w1)
                 end).
  { unfold completed. unfold bind at 1, get. rewrite Hfin. reflexivity. }
  rewrite Hc. clear Hc. destruct (job_truthy w) eqn:Ht.
  - destruct (job_truthy_Some w Ht) as [l Hl].
    destruct (update_job_started w l Ht Hl) as (n & _ & _ & Heq & _).
    rewrite Heq. cbv zeta.
    destruct (on_api_get (api w) (length (calls w) + n)) as [r|].
    + right. exists l, r, (called (CallApiGet l) (after_failures (CallApiGet l) 0 n w)).
      repeat (split; [reflexivity || exact Hl|]). reflexivity.
    + left. simpl. repeat split. discriminate.
  - left. rewrite (update_job_unstarted w Ht).
    destruct (usage_error UseNotStarted w) as [a|e] eqn:E.
    + destruct (usage_error_not_ok _ _ _ E).
    + simpl. repeat split. discriminate.
Qed.

Lemma check_status_true_inv (w w' : World) :
  _check_status w = (Ok true, w') ->
  _finish_time (self w') = Some (clock w)
  /\ exists st, observed w = Some st /\ terminal st
       /\ (_failed (self w') = true <->
           failure_terminal st \/ _failed (self w) = true).
Proof.
  intros Hcs.
  destruct (check_status_cases w)
    as [[e He] | (l & pct & st & who & Hj & _ & Hst & _ & Heq)];
    rewrite Hcs in *; [discriminate|].
  assert (Hobs : observed w = Some st) by (unfold observed; rewrite Hj; exact Hst).
  unfold ruled in Heq.
  destruct (py_eq_status st COMPLETED) eqn:Ec.
  { injection Heq as ->. apply py_eq_status_true in Ec.
    split; [reflexivity|]. exists st. split; [exact Hobs|].
    split; [left; exact Ec|]. simpl. split; [tauto|].
    intros [[E | E] | E]; [rewrite Ec in E; discriminate.. | exact E]. }
  destruct (py_in_statuses st [FAILED; SKIPPED]) eqn:Ef; [|discriminate].
  assert (Hft : failure_terminal st).
  { unfold py_in_statuses in Ef. simpl in Ef.
    apply orb_true_iff in Ef as [Ef | Ef].
    - left. apply py_eq_status_true. exact Ef.
    - right. apply py_eq_status_true. rewrite orb_false_r in Ef. exact Ef. }
  simpl in Heq. destruct (_start_time (self w)); [|discriminate].
  injection Heq as ->. split; [reflexivity|]. exists st.
  split; [exact Hobs|]. split; [right; exact Hft|]. simpl. tauto.
Qed.

Lemma check_status_false_inv (w w' : World) :
  _check_status w = (Ok false, w') ->
  self w' = self w /\ heap w' = heap w
  /\ exists st, observed w = Some st /\ ~ terminal st.
Proof.
  intros Hcs.
  destruct (check_status_cases w)
    as [[e He] | (l & pct & st & who & Hj & _ & Hst & _ & Heq)];
    rewrite Hcs in *; [discriminate|].
  assert (Hobs : observed w = Some st) by (unfold observed; rewrite Hj; exact Hst).
  unfold ruled in Heq.
  destruct (py_eq_status st COMPLETED) eqn:Ec; [discriminate|].
  destruct (py_in_statuses st [FAILED; SKIPPED]) eqn:Ef.
  { simpl in Heq. destruct (_start_time (self w)); discriminate. }
  injection Heq as ->. split; [reflexivity|]. split; [reflexivity|].
  exists st. split; [exact Hobs|].
  apply py_eq_status_false in Ec.
  unfold py_in_statuses in Ef. simpl in Ef. rewrite orb_false_r in Ef.
  apply orb_false_iff in Ef as [Ef1 Ef2].
  apply py_eq_status_false in Ef1, Ef2.
  intros [E | [E | E]]; contradiction.
Qed.

(** X5. Once [completed] has returned true it keeps returning true:
    the job's [_finish_time] is set, so every later call, whatever time
    has passed, answers at once, makes no remote call and changes
    nothing. *)
Theorem completed_true_is_final (w w' : World) :
  completed w = (Ok true, w') ->
  _finish_time (self w') <> None
  /\ forall dt, completed (tick dt w') = (Ok true, tick dt w').
Proof.
  intros Hc.
  assert (Hfin : exists t, _finish_time (self w') = Some t).
  { destruct (_finish_time (self w)) as [t|] eqn:Hf.
    - rewrite (completed_memoized w t Hf) in Hc. injection Hc as <-. eauto.
    - destruct (completed_unfinished w Hf)
        as [(Hno & _) | (l & r & w0 & _ & _ & _ & _ & Heq)].
      + rewrite Hc in Hno. destruct (Hno true). reflexivity.
      + rewrite Heq in Hc.
        destruct (check_status_true_inv _ _ Hc) as [H _]. eauto. }
  destruct Hfin as [t Ht]. split; [rewrite Ht; discriminate|].
  intros dt. apply (completed_memoized (tick dt w') t). exact Ht.
Qed.

Lemma completed_true_is_final_witness :
  completed (Sample.started (Sample.steady FAILED))
  = (Ok true, Sample.checked (Sample.steady FAILED))
  /\ completed (tick 5 (Sample.checked (Sample.steady FAILED)))
     = (Ok true, tick 5 (Sample.checked (Sample.steady FAILED))).
Proof.
  assert (Hc : completed (Sample.started (Sample.steady FAILED))
               = (Ok true, Sample.checked (Sample.steady FAILED)))
    by (vm_compute; reflexivity).
  split; [exact Hc|].
  exact (proj2 (completed_true_is_final _ _ Hc) 5).
Defined.

(** X6. When [completed] returns false the job is still running and can
    be polled again: the status it has just read is not terminal,
    [_finish_time] is not set, and [_failed], [_start_time] and the
    parameters are what they were. *)
Theorem completed_false_still_running (w w' : World) :
  completed w = (Ok false, w') ->
  _finish_time (self w') = None
  /\ _failed (self w') = _failed (self w)
  /\ _start_time (self w') = _start_time (self w)
  /\ _params (self w') = _params (self w)
  /\ exists st, observed w' = Some st /\ ~ terminal st.
Proof.
  intros Hc.
  destruct (_finish_time (self w)) as [t|] eqn:Hf.
  { rewrite (completed_memoized w t Hf) in Hc. discriminate. }
  destruct (completed_unfinished w Hf)
    as [(Hno & _) | (l & r & w0 & _ & Hs & _ & _ & Heq)].
  { rewrite Hc in Hno. destruct (Hno false). reflexivity. }
  rewrite Heq in Hc.
  destruct (check_status_false_inv _ _ Hc) as (Hself & Hheap & st & Hobs & Hnt).
  destruct (rebound_fields w0 l r) as (H1 & H2 & H3 & H4 & _).
  rewrite Hself, H1, H2, H3, H4, Hs.
  repeat (split; [assumption || reflexivity|]).
  exists st. split; [|exact Hnt].
  rewrite (observed_frame _ _ Hself Hheap). exact Hobs.
Qed.

Lemma completed_false_still_running_witness :
  completed (Sample.started (Sample.steady RUNNING))
  = (Ok false, Sample.checked (Sample.steady RUNNING))
  /\ _finish_time (self (Sample.checked (Sample.steady RUNNING))) = None
  /\ _failed (self (Sample.checked (Sample.steady RUNNING)))
     = _failed (self (Sample.started (Sample.steady RUNNING))).
Proof.
  assert (Hc : completed (Sample.started (Sample.steady RUNNING))
               = (Ok false, Sample.checked (Sample.steady RUNNING)))
    by (vm_compute; reflexivity).
  split; [exact Hc|].
  destruct (completed_false_still_running _ _ Hc) as (H1 & H2 & _).
  split; [exact H1 | exact H2].
Defined.

(** ** The remote calls each method makes *)

Lemma called_after_failures (c : call) (n : nat) (w : World) :
  calls (called c (after_failures c 0 n w)) = (calls w ++ replicate (S n) c)%list.
Proof. simpl. rewrite <- app_assoc, <- replicate_S_end. reflexivity. Qed.

(** X7. Each method talks to the service about its own business only:
    the calls [start] adds to the log are kickoff calls with the job's
    parameters, those of [completed] are status calls on the handle the
    job held, those of [get_result] are result calls on that handle; in
    each case at most [max_tries] of them. *)
Theorem only_own_calls (w : World) :
  (exists m, (m <= max_tries)%nat
     /\ calls (snd (start w)) = (calls w ++ replicate m (kickoff_call w))%list)
  /\ (exists m, (m <= max_tries)%nat
        /\ calls (snd (completed w)) = (calls w ++ replicate m (refresh_call w))%list)
  /\ (exists m, (m <= max_tries)%nat
        /\ calls (snd (get_result w)) = (calls w ++ replicate m (result_call w))%list).
Proof.
  assert (Hnone : forall c, calls w = (calls w ++ replicate 0 c)%list).
  { intros c. simpl. rewrite app_nil_r. reflexivity. }
  split; [|split].
  - destruct (job_truthy w) eqn:Ht.
    + exists 0%nat. split; [lia|]. rewrite start_started by assumption. apply Hnone.
    + destruct (start_unstarted w Ht) as (n & Hn & _ & Heq & _).
      exists (S n). split; [lia|].
      rewrite Heq, start_body_unstarted
        by (rewrite <- Ht; apply job_truthy_frame; reflexivity).
      cbv zeta.
      change (CallGetInsights (_params (self (after_failures (kickoff_call w) 0 n w))))
        with (kickoff_call w).
      pose proof (called_after_failures (kickoff_call w) n w) as Hcalls.
      destruct (on_get_insights _ _) as [d|]; [|exact Hcalls].
      destruct (d !! "report_run_id");
        [destruct (_params _ !! "time_range");
         [destruct (_params _ !! "breakdowns")|]|];
        exact Hcalls.
  - destruct (_finish_time (self w)) as [t|] eqn:Hfin.
    { exists 0%nat. split; [lia|]. rewrite (completed_memoized w t Hfin). apply Hnone. }
    assert (Hc : completed w
                 = match _update_job w with
                   | (Ok _, w1) => _check_status w1
                   | (Raise e, w1) => (Raise e, w1)
                   end).
    { unfold completed. unfold bind at 1, get. rewrite Hfin. reflexivity. }
    rewrite Hc. clear Hc. destruct (job_truthy w) eqn:Ht.
    + destruct (job_truthy_Some w Ht) as [l Hl].
      destruct (update_job_started w l Ht Hl) as (n & Hn & _ & Heq & _).
      exists (S n). split; [lia|]. rewrite Heq. cbv zeta.
      assert (Hcall : refresh_call w = CallApiGet l)
        by (unfold refresh_call; rewrite Hl; reflexivity).
      rewrite Hcall.
      pose proof (called_after_failures (CallApiGet l) n w) as Hcalls.
      destruct (on_api_get (api w) (length (calls w) + n)) as [r|];
        [|exact Hcalls].
      destruct (check_status_frame
                  (rebound l r (called (CallApiGet l)
                                  (after_failures (CallApiGet l) 0 n w))))
        as (_ & _ & _ & _ & Hsame & _).
      rewrite Hsame.
      destruct (rebound_fields (called (CallApiGet l)
                                  (after_failures (CallApiGet l) 0 n w)) l r)
        as (_ & _ & _ & _ & _ & -> & _).
      exact Hcalls.
    + exists 0%nat. split; [lia|]. rewrite (update_job_unstarted w Ht).
      destruct (usage_error UseNotStarted w) as [a|e] eqn:E.
      * destruct (usage_error_not_ok _ _ _ E).
      * apply Hnone.
  - destruct (job_truthy w) eqn:Ht, (failed w) eqn:Hf;
      try (exists 0%nat; split; [lia|];
           rewrite get_result_refused by auto; apply Hnone).
    destruct (job_truthy_Some w Ht) as [l Hl].
    destruct (get_result_allowed w l Ht Hf Hl) as (n & Hn & _ & Heq & _).
    exists (S n). split; [lia|]. rewrite Heq. cbv zeta.
    assert (Hcall : result_call w = CallGetResult l)
      by (unfold result_call; rewrite Hl; reflexivity).
    rewrite Hcall.
    pose proof (called_after_failures (CallGetResult l) n w) as Hcalls.
    destruct (on_get_result (api w) (length (calls w) + n)); exact Hcalls.
Qed.

(** ** [process_batch_result], off line *)

(** X8. [process_batch_result] makes no remote call and reads no clock
    but for the finish time: the call log, the clock, the service, the
    start time and the parameters are what they were, whether it returns
    or raises. *)
Theorem process_batch_result_offline (w : World) (response : dict) :
  calls (snd (process_batch_result response w)) = calls w
  /\ clock (snd (process_batch_result response w)) = clock w
  /\ api (snd (process_batch_result response w)) = api w
  /\ _start_time (self (snd (process_batch_result response w)))
     = _start_time (self w)
  /\ _params (self (snd (process_batch_result response w))) = _params (self w).
Proof.
  destruct (_job (self w)) as [l|] eqn:Hl.
  - rewrite (process_batch_result_started w l response Hl). cbn [snd].
    destruct (check_status_frame (rebound l (SameObject response) w))
      as (_ & _ & -> & -> & -> & -> & ->).
    repeat split.
  - rewrite (process_batch_result_unstarted w response Hl). repeat split.
Qed.

(** ** class Status *)

(** X9. No two members of [Status] share a value: a string equals at
    most one member, the one it is the value of; and a value that is not
    a string equals none. *)
Theorem status_members_distinct (s s' : Status) :
  (py_eq_status (VStr (Status_value s)) s' = true <-> s = s')
  /\ forall z, py_eq_status (VInt z) s = false.
Proof.
  split.
  - rewrite py_eq_status_true. split.
    + intros [= E]. destruct s, s'; (reflexivity || discriminate).
    + intros ->. reflexivity.
  - intros z. apply py_eq_status_false. discriminate.
Qed.

(** ** The order of a job's life *)

Lemma ordered_frame (w w' : World) :
  self w' = self w -> lifecycle_ordered w -> lifecycle_ordered w'.
Proof. unfold lifecycle_ordered. intros ->. tauto. Qed.

Lemma ordered_after_check (w : World) :
  lifecycle_ordered w -> lifecycle_ordered (snd (_check_status w)).
Proof.
  intros (Hf & Hj & Hs).
  destruct (check_status_cases w)
    as [[e ->] | (l & pct & st & who & Hl & _ & _ & _ & ->)].
  { split; [exact Hf | split; [exact Hj | exact Hs]]. }
  assert (Hjob : _job (self w) <> None) by (rewrite Hl; discriminate).
  unfold ruled.
  destruct (py_eq_status st COMPLETED).
  { simpl. split; [discriminate | split; [tauto | exact Hs]]. }
  destruct (py_in_statuses st [FAILED; SKIPPED]).
  - simpl. destruct (_start_time (self w)) eqn:E; simpl;
      (split; [discriminate | split; [tauto|]]);
      change (_job (self w) <> None <-> _start_time (self w) <> None);
      rewrite E; exact Hs.
  - simpl. split; [exact Hf | split; [exact Hj | exact Hs]].
Qed.

Lemma ordered_rebound (w : World) l r :
  _job (self w) = Some l -> lifecycle_ordered w -> lifecycle_ordered (rebound l r w).
Proof.
  intros Hl (Hf & Hj & Hs).
  assert (Hst : _start_time (self w) <> None)
    by (apply Hs; rewrite Hl; discriminate).
  destruct r; simpl; (split; [exact Hf|]; split; [discriminate|];
                      split; [intros _; exact Hst | discriminate]).
Qed.

Lemma ordered_cleared (w : World) : lifecycle_ordered (cleared w).
Proof. simpl. split; [discriminate|]. split; tauto. Qed.

Lemma start_ordered (w : World) :
  lifecycle_ordered w -> lifecycle_ordered (perform Start w).
Proof.
  intros Hord. simpl. destruct (job_truthy w) eqn:Ht.
  - rewrite start_started by assumption. exact Hord.
  - destruct (start_unstarted w Ht) as (n & _ & _ & Heq & _).
    rewrite Heq, start_body_unstarted
      by (rewrite <- Ht; apply job_truthy_frame; reflexivity).
    cbv zeta.
    destruct (on_get_insights _ _) as [d|];
      [|revert Hord; apply ordered_frame; reflexivity].
    destruct Hord as (Hf & _ & _).
    destruct (d !! "report_run_id");
      [destruct (_params _ !! "time_range");
       [destruct (_params _ !! "breakdowns")|]|];
      simpl; (split; [exact Hf|]; split; [discriminate|];
              split; discriminate).
Qed.

Lemma perform_ordered (o : operation) (w : World) :
  lifecycle_ordered w -> lifecycle_ordered (perform o w).
Proof.
  intros Hord. destruct o.
  - apply start_ordered, Hord.
  - simpl. unfold restart. unfold bind at 1, get.
    destruct (negb (job_truthy w) || negb (failed w)).
    + rewrite raise_usage. exact Hord.
    + change ((do _ <- modify (with_self (set_job None));
               do _ <- modify (with_self (set_failed false));
               do _ <- modify (with_self (set_start_time None));
               do _ <- modify (with_self (set_finish_time None));
               do _ <- start;
               do s <- __str__;
               logger_info (LogRestarted s)) w)
        with ((do _ <- start; do s <- __str__; logger_info (LogRestarted s))
                (cleared w)).
      pose proof (start_ordered (cleared w) (ordered_cleared w)) as Hs.
      simpl in Hs. unfold bind.
      destruct (start (cleared w)) as [[[]|e] w1]; [|exact Hs].
      rewrite str_pure. destruct (str_of w1); [|exact Hs].
      simpl. revert Hs. apply ordered_frame; reflexivity.
  - simpl. destruct (_finish_time (self w)) as [t|] eqn:Hfin.
    { rewrite (completed_memoized w t Hfin). exact Hord. }
    destruct (completed_unfinished w Hfin)
      as [(_ & Hs & _) | (l & r & w0 & Hl & Hs & _ & _ & ->)].
    + revert Hord. apply ordered_frame. exact Hs.
    + apply ordered_after_check, ordered_rebound.
      * rewrite Hs. exact Hl.
      * revert Hord. apply ordered_frame. exact Hs.
  - simpl. rewrite batch_update_request_pure. exact Hord.
  - simpl. destruct (_job (self w)) as [l|] eqn:Hl.
    + rewrite (process_batch_result_started w l response Hl). cbn [snd].
      apply ordered_after_check, ordered_rebound; assumption.
    + rewrite (process_batch_result_unstarted w response Hl). exact Hord.
  - simpl.
    destruct (job_truthy w) eqn:Ht, (failed w) eqn:Hf;
      try (rewrite get_result_refused by auto; exact Hord).
    destruct (job_truthy_Some w Ht) as [l Hl].
    destruct (get_result_allowed w l Ht Hf Hl) as (n & _ & _ & Heq & _).
    rewrite Heq. simpl.
    destruct (on_get_result (api w) (length (calls w) + n));
      revert Hord; apply ordered_frame; reflexivity.
Qed.

(** X10. Whatever the service answers and in whatever order the caller
    uses the job, its life is ordered: [_failed] is only true on a job
    whose [_finish_time] is set, [_finish_time] is only set on a job that
    holds a handle, and the job holds a handle exactly when its
    [_start_time] is set; hence [elapsed_time] is [None] exactly on a job
    without a handle. *)
Theorem lifecycle_ordered_reachable (remote : Remote) (params : dict) (w : World) :
  reachable any_use remote params w ->
  lifecycle_ordered w
  /\ (fst (elapsed_time w) = Ok None <-> _job (self w) = None).
Proof.
  intros Hreach.
  assert (Hord : lifecycle_ordered w).
  { induction Hreach as [now | w o _ IH _ | w dt _ IH].
    - simpl. split; [discriminate|]. split; tauto.
    - apply perform_ordered, IH.
    - revert IH. apply ordered_frame. reflexivity. }
  split; [exact Hord|].
  destruct Hord as (_ & _ & Hs).
  unfold elapsed_time, bind, get, ret, pendulum_now.
  destruct (_start_time (self w)) as [t0|], (_job (self w)) as [l|];
    try destruct (_finish_time (self w)); simpl;
    split; intros H; try discriminate; try reflexivity; exfalso;
    first [ apply (proj1 Hs); [discriminate | reflexivity]
          | apply (proj2 Hs); [discriminate | reflexivity] ].
Qed.

Lemma lifecycle_ordered_reachable_witness :
  reachable any_use (Sample.steady COMPLETED) Sample.params
    Sample.finished_then_running
  /\ lifecycle_ordered Sample.finished_then_running.
Proof.
  assert (Hreach : reachable any_use (Sample.steady COMPLETED) Sample.params
                     Sample.finished_then_running).
  { unfold Sample.finished_then_running, Sample.checked, Sample.started.
    do 2 (apply reach_op; [|exact I]). apply reach_tick.
    apply reach_op; [|exact I]. apply reach_new. }
  split; [exact Hreach|].
  exact (proj1 (lifecycle_ordered_reachable _ _ _ Hreach)).
Defined.

(** ** [restart], when it returns *)

(** X11. When [restart] returns, the job had failed and is now started
    anew: [_failed] is false, [_finish_time] is not set, the job holds a
    new object answered by the kickoff call (the objects of the store are
    untouched), the start time is the time of that answer and the
    parameters are the same; and a second [restart] is refused with the
    usage error. *)
Theorem restart_success (w w' : World) :
  restart w = (Ok tt, w') ->
  _failed (self w) = true
  /\ _failed (self w') = false
  /\ _finish_time (self w') = None
  /\ _job (self w') = Some (length (heap w))
  /\ (exists d, heap w' = (heap w ++ [d])%list)
  /\ _start_time (self w') = Some (clock w')
  /\ _params (self w') = _params (self w)
  /\ exists who,
       restart w' = (Raise (RuntimeError UseOnlyFailedRestart who), w').
Proof.
  intros Hr. unfold restart in Hr. unfold bind at 1, get in Hr.
  destruct (negb (job_truthy w) || negb (failed w)) eqn:Hcond.
  { rewrite raise_usage in Hr. injection Hr as Hr _.
    destruct (usage_error_not_ok _ _ _ Hr). }
  apply orb_false_iff in Hcond as [_ Hfailed].
  apply negb_false_iff in Hfailed.
  change ((do _ <- modify (with_self (set_job None));
           do _ <- modify (with_self (set_failed false));
           do _ <- modify (with_self (set_start_time None));
           do _ <- modify (with_self (set_finish_time None));
           do _ <- start;
           do s <- __str__;
           logger_info (LogRestarted s)) w)
    with ((do _ <- start; do s <- __str__; logger_info (LogRestarted s))
            (cleared w)) in Hr.
  unfold bind in Hr.
  destruct (start (cleared w)) as [[[]|e] w1] eqn:Hst; [|discriminate].
  rewrite str_pure in Hr.
  destruct (str_of w1) as [s|e] eqn:Hs; [|discriminate].
  unfold logger_info, modify in Hr. injection Hr as <-.
  destruct (start_ok_inv _ _ Hst)
    as (_ & n & d & job_id & tr & bd & _ & _ & _ & _ & _ & _ & Hw1).
  split; [exact Hfailed|].
  assert (Hfalse : _failed (self w1) = false) by (rewrite Hw1; reflexivity).
  split; [exact Hfalse|].
  split; [rewrite Hw1; reflexivity|].
  split; [rewrite Hw1; reflexivity|].
  split; [exists d; rewrite Hw1; reflexivity|].
  split; [rewrite Hw1; reflexivity|].
  split; [rewrite Hw1; reflexivity|].
  exists s. set (w' := with_log _ w1).
  unfold restart. unfold bind at 1, get.
  assert (negb (job_truthy w') || negb (failed w') = true) as ->.
  { unfold failed. change (_failed (self w')) with (_failed (self w1)).
    rewrite Hfalse. apply orb_true_r. }
  rewrite raise_usage. unfold usage_error.
  rewrite (str_of_frame w1 w') by reflexivity. rewrite Hs. reflexivity.
Qed.

Lemma restart_success_witness :
  restart (Sample.checked (Sample.steady FAILED))
  = (Ok tt, perform Restart (Sample.checked (Sample.steady FAILED)))
  /\ _failed (self (Sample.checked (Sample.steady FAILED))) = true
  /\ _failed (self (perform Restart (Sample.checked (Sample.steady FAILED))))
     = false
  /\ _finish_time (self (perform Restart (Sample.checked (Sample.steady FAILED))))
     = None.
Proof.
  assert (Hr : restart (Sample.checked (Sample.steady FAILED))
               = (Ok tt, perform Restart (Sample.checked (Sample.steady FAILED))))
    by (vm_compute; reflexivity).
  split; [exact Hr|].
  destruct (restart_success _ _ Hr) as (H1 & H2 & H3 & _).
  split; [exact H1|]. split; [exact H2 | exact H3].
Defined.

(** * Properties of the listing *)

Module ListingFacts.
Import Listing.

Lemma comprehension_ok {A B} (f : A -> result B) (l : list A) (ys : list B) :
  comprehension f l = Ok ys ->
  length ys = length l
  /\ forall j x, l !! j = Some x -> exists y, ys !! j = Some y /\ f x = Ok y.
Proof.
  revert ys. induction l as [|x l IH]; intros ys; simpl.
  - intros [= <-]. split; [reflexivity|]. intros j x Hx.
    rewrite lookup_nil in Hx. discriminate.
  - destruct (f x) as [y|e] eqn:Hfx; [|discriminate].
    destruct (comprehension f l) as [ys'|e]; [|discriminate].
    intros [= <-]. destruct (IH ys' eq_refl) as [Hlen Hcells].
    split; [simpl; rewrite Hlen; reflexivity|].
    intros [|j] x' Hx'; simpl in *.
    + injection Hx' as <-. eauto.
    + apply Hcells. exact Hx'.
Qed.

Lemma comprehension_total {A B} (f : A -> result B) (l : list A) :
  Forall (fun x => exists y, f x = Ok y) l -> exists ys, comprehension f l = Ok ys.
Proof.
  induction 1 as [|x l [y Hy] _ [ys IH]]; simpl; [eauto|].
  rewrite Hy, IH. eauto.
Qed.

Lemma comprehension_raise {A B} (f : A -> result B) (l : list A) e :
  comprehension f l = Raise e -> exists x, x ∈ l /\ f x = Raise e.
Proof.
  induction l as [|x l IH]; simpl; [discriminate|].
  destruct (f x) as [y|e'] eqn:Hfx.
  - destruct (comprehension f l) as [ys|e'']; [discriminate|].
    intros [= ->]. destruct (IH eq_refl) as (x' & Hin & Hx').
    exists x'. split; [right; exact Hin | exact Hx'].
  - intros [= ->]. exists x. split; [left | exact Hfx].
Qed.

End ListingFacts.

(** X12. When [_parse_response] returns, the response had the list
    field and the result is a table: one row per item, in the order of
    the items, each row with one cell per displayed field, in the order
    of the fields, the cell being the item's value for that field.
    Fields of an item that are not displayed are left out. *)
Theorem parse_response_table (fields_to_display : list string)
    (list_field_in_response : string)
    (api_response : gmap string (list dict)) (rows : list (list pyval)) :
  Listing._parse_response fields_to_display list_field_in_response api_response
  = Ok rows ->
  exists items,
    api_response !! list_field_in_response = Some items
    /\ length rows = length items
    /\ Forall (fun row => length row = length fields_to_display) rows
    /\ forall j i item field,
         items !! j = Some item -> fields_to_display !! i = Some field ->
         exists row v,
           rows !! j = Some row /\ row !! i = Some v /\ item !! field = Some v.
Proof.
  unfold Listing._parse_response.
  destruct (api_response !! list_field_in_response) as [items|]; [|discriminate].
  intros Hrows. exists items. split; [reflexivity|].
  destruct (ListingFacts.comprehension_ok _ _ _ Hrows) as [Hlen Hcells].
  split; [exact Hlen|]. split.
  - apply Forall_lookup_2. intros j row Hrow.
    destruct (lookup_lt_is_Some_2 items j) as [item Hitem].
    { rewrite <- Hlen. apply lookup_lt_Some in Hrow. exact Hrow. }
    destruct (Hcells j item Hitem) as (row' & Hrow' & Hrowok).
    rewrite Hrow in Hrow'. injection Hrow' as <-.
    apply (ListingFacts.comprehension_ok _ _ _ Hrowok).
  - intros j i item field Hitem Hfield.
    destruct (Hcells j item Hitem) as (row & Hrow & Hrowok).
    destruct (ListingFacts.comprehension_ok _ _ _ Hrowok) as [_ Hrowcells].
    destruct (Hrowcells i field Hfield) as (v & Hv & Hget).
    exists row, v. split; [exact Hrow|]. split; [exact Hv|].
    unfold Listing.item_get in Hget.
    destruct (item !! field); [injection Hget as ->; reflexivity | discriminate].
Qed.

Lemma parse_response_table_witness :
  Listing._parse_response Listing.fields "sources" Listing.response
  = Ok [[VStr "pokeapi"; VStr "s-1"]; [VStr "faker"; VStr "s-2"]]
  /\ exists items,
       Listing.response !! "sources" = Some items
       /\ length [[VStr "pokeapi"; VStr "s-1"]; [VStr "faker"; VStr "s-2"]]
          = length items.
Proof.
  assert (H : Listing._parse_response Listing.fields "sources" Listing.response
              = Ok [[VStr "pokeapi"; VStr "s-1"]; [VStr "faker"; VStr "s-2"]])
    by (vm_compute; reflexivity).
  split; [exact H|].
  destruct (parse_response_table _ _ _ _ H) as (items & H1 & H2 & _).
  exists items. split; [exact H1 | exact H2].
Defined.

(** X13. [_parse_response] returns exactly when the response has the
    list field and every item has every displayed field. Otherwise it
    raises a [KeyError]: for the list field when the response lacks it,
    else for a displayed field that some item lacks. With no field to
    display it returns a row of no cells for every item, whatever the
    items hold. *)
Theorem parse_response_key_error (fields_to_display : list string)
    (list_field_in_response : string)
    (api_response : gmap string (list dict)) :
  ((exists rows,
      Listing._parse_response fields_to_display list_field_in_response
        api_response = Ok rows)
   <-> exists items,
         api_response !! list_field_in_response = Some items
         /\ Forall (fun item : dict =>
                      Forall (fun field => is_Some (item !! field))
                        fields_to_display) items)
  /\ (forall e,
        Listing._parse_response fields_to_display list_field_in_response
          api_response = Raise e ->
        (api_response !! list_field_in_response = None
         /\ e = KeyError list_field_in_response)
        \/ exists items (item : dict) field,
             api_response !! list_field_in_response = Some items
             /\ item ∈ items /\ field ∈ fields_to_display
             /\ item !! field = None /\ e = KeyError field)
  /\ (forall items,
        api_response !! list_field_in_response = Some items ->
        Listing._parse_response [] list_field_in_response api_response
        = Ok (replicate (length items) [])).
Proof.
  unfold Listing._parse_response.
  destruct (api_response !! list_field_in_response) as [items|].
  2:{ split; [|split].
      - split; [intros [rows H]; discriminate | intros (items & H & _); discriminate].
      - intros e [= <-]. left. split; reflexivity.
      - intros items H. discriminate. }
  split; [|split].
  - split.
    + intros [rows Hrows]. exists items. split; [reflexivity|].
      destruct (ListingFacts.comprehension_ok _ _ _ Hrows) as [_ Hcells].
      apply Forall_lookup_2. intros j item Hitem.
      destruct (Hcells j item Hitem) as (row & _ & Hrow).
      destruct (ListingFacts.comprehension_ok _ _ _ Hrow) as [_ Hrowcells].
      apply Forall_lookup_2. intros i field Hfield.
      destruct (Hrowcells i field Hfield) as (v & _ & Hget).
      unfold Listing.item_get in Hget.
      destruct (item !! field); [eauto | discriminate].
    + intros (items' & [= <-] & Hall).
      apply ListingFacts.comprehension_total.
      eapply Forall_impl; [exact Hall|]. intros item Hitem. simpl.
      apply ListingFacts.comprehension_total.
      eapply Forall_impl; [exact Hitem|]. intros field [v Hv]. simpl.
      exists v. unfold Listing.item_get. rewrite Hv. reflexivity.
  - intros e He. right.
    destruct (ListingFacts.comprehension_raise _ _ _ He) as (item & Hin & Hitem).
    destruct (ListingFacts.comprehension_raise _ _ _ Hitem) as (field & Hfin & Hget).
    exists items, item, field. split; [reflexivity|].
    split; [exact Hin|]. split; [exact Hfin|].
    unfold Listing.item_get in Hget.
    destruct (item !! field); [discriminate|].
    injection Hget as <-. split; reflexivity.
  - intros items' [= <-]. clear.
    induction items as [|item items IH]; [reflexivity|].
    simpl in *. rewrite IH. reflexivity.
Qed.

Lemma parse_response_key_error_witness :
  Listing._parse_response ["name"; "workspaceId"] "sources" Listing.response
  = Raise (KeyError "workspaceId")
  /\ exists items (item : dict) field,
       Listing.response !! "sources" = Some items
       /\ item ∈ items /\ item !! field = None
       /\ KeyError "workspaceId" = KeyError field.
Proof.
  assert (H : Listing._parse_response ["name"; "workspaceId"] "sources"
                Listing.response = Raise (KeyError "workspaceId"))
    by (vm_compute; reflexivity).
  split; [exact H|].
  destruct (proj1 (proj2 (parse_response_key_error _ _ _)) _ H)
    as [[Hnone _] | (items & item & field & H1 & H2 & _ & H3 & H4)].
  - exfalso. assert (Hs : Listing.response !! "sources" <> None)
      by (vm_compute; discriminate).
    exact (Hs Hnone).
  - exists items, item, field. repeat split; assumption.
Defined.

(** * The two paths and the other methods together *)

(** X14. The batch path finishes a job like the direct one: when
    [process_batch_result] returns and the handle now carries a terminal
    status, [_finish_time] is set, so [completed] answers true without a
    remote call and [batch_update_request] hands out no further
    request. *)
Theorem batch_result_terminal_finishes (w w' : World) (response : dict) st :
  process_batch_result response w = (Ok tt, w') ->
  observed w' = Some st ->
  terminal st ->
  _finish_time (self w') = Some (clock w)
  /\ completed w' = (Ok true, w')
  /\ batch_update_request w' = (Ok None, w').
Proof.
  intros Hp Hobs Hterm.
  destruct (_job (self w)) as [l|] eqn:Hl.
  2:{ rewrite (process_batch_result_unstarted w response Hl) in Hp. discriminate. }
  rewrite (process_batch_result_started w l response Hl) in Hp.
  set (W := rebound l (SameObject response) w) in *.
  destruct (_check_status W) as [[b|e] w1] eqn:Hcs; [|discriminate].
  simpl in Hp. injection Hp as <-.
  assert (Hfin : _finish_time (self w1) = Some (clock w)).
  { destruct b.
    - apply (check_status_true_inv _ _ Hcs).
    - destruct (check_status_false_inv _ _ Hcs) as (Hs & Hh & st' & Hobs' & Hnt).
      rewrite (observed_frame _ _ Hs Hh), Hobs' in Hobs.
      injection Hobs as ->. contradiction. }
  split; [exact Hfin|]. split.
  - apply (completed_memoized w1 (clock w) Hfin).
  - unfold batch_update_request, bind, get, ret. rewrite Hfin. reflexivity.
Qed.

Lemma batch_result_terminal_finishes_witness :
  process_batch_result (Sample.snapshot 100 SKIPPED)
    (Sample.started (Sample.steady RUNNING))
  = (Ok tt, perform (ProcessBatchResult (Sample.snapshot 100 SKIPPED))
              (Sample.started (Sample.steady RUNNING)))
  /\ completed (perform (ProcessBatchResult (Sample.snapshot 100 SKIPPED))
                 (Sample.started (Sample.steady RUNNING)))
     = (Ok true, perform (ProcessBatchResult (Sample.snapshot 100 SKIPPED))
                   (Sample.started (Sample.steady RUNNING))).
Proof.
  set (w' := perform _ _).
  assert (Hp : process_batch_result (Sample.snapshot 100 SKIPPED)
                 (Sample.started (Sample.steady RUNNING)) = (Ok tt, w'))
    by (vm_compute; reflexivity).
  assert (Hobs : observed w' = Some (VStr (Status_value SKIPPED)))
    by (vm_compute; reflexivity).
  split; [exact Hp|].
  exact (proj1 (proj2 (batch_result_terminal_finishes _ _ _ _ Hp Hobs
                         (or_intror (or_intror eq_refl))))).
Defined.

(** ** A finished job holds its handle *)

Lemma job_truthy_same_job (w w' : World) :
  _job (self w') = _job (self w) -> heap w' = heap w ->
  job_truthy w' = job_truthy w.
Proof. intros Hj Hh. unfold job_truthy, obj. rewrite Hj, Hh. reflexivity. Qed.

Lemma holds_frame (w w' : World) :
  self w' = self w -> heap w' = heap w ->
  finished_holds_handle w -> finished_holds_handle w'.
Proof.
  unfold finished_holds_handle. intros Hs Hh H.
  rewrite (job_truthy_frame w w' Hs Hh), Hs. exact H.
Qed.

Lemma holds_after_check (w : World) :
  finished_holds_handle w -> finished_holds_handle (snd (_check_status w)).
Proof.
  intros Hw.
  destruct (check_status_frame w) as (Hheap & Hjob & _).
  destruct (check_status_cases w)
    as [[e He] | (l & pct & st & who & Hl & Hpct & _ & _ & _)].
  { rewrite He. exact Hw. }
  intros _. rewrite (job_truthy_same_job w _ Hjob Hheap).
  unfold job_truthy. rewrite Hl. apply bool_decide_eq_true.
  intros E. rewrite E, lookup_empty in Hpct. discriminate.
Qed.

Lemma holds_patched (w : World) l (d : dict) :
  _job (self w) = Some l ->
  finished_holds_handle w -> finished_holds_handle (rebound l (SameObject d) w).
Proof.
  intros Hl Hw Hfin. specialize (Hw Hfin).
  unfold job_truthy in Hw. rewrite Hl in Hw.
  apply bool_decide_eq_true_1 in Hw.
  unfold job_truthy.
  change (_job (self (rebound l (SameObject d) w))) with (Some l).
  apply bool_decide_eq_true.
  destruct (heap w !! l) as [d0|] eqn:Hd0.
  2:{ unfold obj in Hw. rewrite Hd0 in Hw. destruct Hw. reflexivity. }
  rewrite (obj_rebound_same w l d d0 Hd0).
  assert (Hne : d0 <> ∅) by (unfold obj in Hw; rewrite Hd0 in Hw; exact Hw).
  destruct (map_choose d0 Hne) as (k & v & Hk).
  intros E. assert (Hs : is_Some ((d ∪ d0) !! k)).
  { apply lookup_union_is_Some. right. eauto. }
  rewrite E, lookup_empty in Hs. destruct Hs as [x Hx]. discriminate.
Qed.

Lemma holds_unfinished (w : World) :
  _finish_time (self w) = None -> finished_holds_handle w.
Proof. intros E H. destruct (H E). Qed.

Lemma start_holds (w : World) :
  finished_holds_handle w -> finished_holds_handle (perform Start w).
Proof.
  intros Hw. simpl. destruct (job_truthy w) eqn:Ht.
  - rewrite start_started by assumption. exact Hw.
  - assert (Hfin : _finish_time (self w) = None).
    { destruct (_finish_time (self w)) eqn:E; [|reflexivity].
      assert (H : job_truthy w = true) by (apply Hw; rewrite E; discriminate).
      rewrite Ht in H. discriminate. }
    destruct (start_unstarted w Ht) as (n & _ & _ & Heq & _).
    rewrite Heq, start_body_unstarted
      by (rewrite <- Ht; apply job_truthy_frame; reflexivity).
    cbv zeta.
    destruct (on_get_insights _ _) as [d|];
      [|revert Hw; apply holds_frame; reflexivity].
    destruct (d !! "report_run_id");
      [destruct (_params _ !! "time_range");
       [destruct (_params _ !! "breakdowns")|]|];
      apply holds_unfinished; exact Hfin.
Qed.

Lemma perform_holds (o : operation) (w : World) :
  finished_holds_handle w -> finished_holds_handle (perform o w).
Proof.
  intros Hw. destruct o.
  - apply start_holds, Hw.
  - simpl. unfold restart. unfold bind at 1, get.
    destruct (negb (job_truthy w) || negb (failed w)).
    + rewrite raise_usage. exact Hw.
    + change ((do _ <- modify (with_self (set_job None));
               do _ <- modify (with_self (set_failed false));
               do _ <- modify (with_self (set_start_time None));
               do _ <- modify (with_self (set_finish_time None));
               do _ <- start;
               do s <- __str__;
               logger_info (LogRestarted s)) w)
        with ((do _ <- start; do s <- __str__; logger_info (LogRestarted s))
                (cleared w)).
      pose proof (start_holds (cleared w) (holds_unfinished (cleared w) eq_refl))
        as Hs.
      simpl in Hs. unfold bind.
      destruct (start (cleared w)) as [[[]|e] w1]; [|exact Hs].
      rewrite str_pure. destruct (str_of w1); [|exact Hs].
      simpl. revert Hs. apply holds_frame; reflexivity.
  - simpl. destruct (_finish_time (self w)) as [t|] eqn:Hfin.
    { rewrite (completed_memoized w t Hfin). exact Hw. }
    destruct (completed_unfinished w Hfin)
      as [(_ & Hs & Hh) | (l & r & w0 & Hl & Hs & _ & _ & ->)].
    + revert Hw. apply holds_frame; assumption.
    + apply holds_after_check, holds_unfinished.
      destruct (rebound_fields w0 l r) as (-> & _). rewrite Hs. exact Hfin.
  - simpl. rewrite batch_update_request_pure. exact Hw.
  - simpl. destruct (_job (self w)) as [l|] eqn:Hl.
    + rewrite (process_batch_result_started w l response Hl). cbn [snd].
      apply holds_after_check, holds_patched; assumption.
    + rewrite (process_batch_result_unstarted w response Hl). exact Hw.
  - simpl.
    destruct (job_truthy w) eqn:Ht, (failed w) eqn:Hf;
      try (rewrite get_result_refused by auto; exact Hw).
    destruct (job_truthy_Some w Ht) as [l Hl].
    destruct (get_result_allowed w l Ht Hf Hl) as (n & _ & _ & Heq & _).
    rewrite Heq. simpl.
    destruct (on_get_result (api w) (length (calls w) + n));
      revert Hw; apply holds_frame; reflexivity.
Qed.

Lemma reachable_holds (remote : Remote) (params : dict) (w : World) :
  reachable any_use remote params w -> finished_holds_handle w.
Proof.
  induction 1 as [now | w o _ IH _ | w dt _ IH].
  - apply holds_unfinished. reflexivity.
  - apply perform_holds, IH.
  - revert IH. apply holds_frame; reflexivity.
Qed.

Lemma restart_allowed_no_usage (w : World) u s :
  job_truthy w = true -> failed w = true ->
  fst (restart w) <> Raise (RuntimeError u s).
Proof.
  intros Ht Hf Hr. unfold restart in Hr. unfold bind at 1, get in Hr.
  rewrite Ht, Hf in Hr.
  change ((if negb true || negb true
           then do s0 <- __str__; raise (RuntimeError UseOnlyFailedRestart s0)
           else
             do _ <- modify (with_self (set_job None));
             do _ <- modify (with_self (set_failed false));
             do _ <- modify (with_self (set_start_time None));
             do _ <- modify (with_self (set_finish_time None));
             do _ <- start;
             do s0 <- __str__;
             logger_info (LogRestarted s0)) w)
    with ((do _ <- start; do s0 <- __str__; logger_info (LogRestarted s0))
            (cleared w)) in Hr.
  pose proof (start_unstarted_no_usage (cleared w) u s eq_refl) as Hs.
  unfold bind in Hr. destruct (start (cleared w)) as [[[]|e] w1].
  - rewrite str_pure in Hr. pose proof (str_of_not_usage w1 u s) as Hn.
    destruct (str_of w1); simpl in Hr; [discriminate | congruence].
  - simpl in Hr, Hs. congruence.
Qed.

Lemma get_result_allowed_no_usage (w : World) u s :
  job_truthy w = true -> failed w = false ->
  fst (get_result w) <> Raise (RuntimeError u s).
Proof.
  intros Ht Hf. destruct (job_truthy_Some w Ht) as [l Hl].
  destruct (get_result_allowed w l Ht Hf Hl) as (n & _ & _ & Heq & _).
  rewrite Heq. simpl.
  destruct (on_get_result (api w) (length (calls w) + n)); discriminate.
Qed.

(** X15. Whatever the service answers and however the job is used, a
    finished job still holds a handle that counts as started. So the
    caller of a finished job is never turned away by both doors: if the
    job did not fail, [get_result] raises no usage error, and if it
    failed, [restart] raises none. *)
Theorem finished_job_usable (remote : Remote) (params : dict) (w : World) :
  reachable any_use remote params w ->
  _finish_time (self w) <> None ->
  job_truthy w = true
  /\ (failed w = false -> forall u s, fst (get_result w) <> Raise (RuntimeError u s))
  /\ (failed w = true -> forall u s, fst (restart w) <> Raise (RuntimeError u s)).
Proof.
  intros Hreach Hfin.
  assert (Ht : job_truthy w = true) by (apply (reachable_holds _ _ _ Hreach), Hfin).
  split; [exact Ht|]. split.
  - intros Hf u s. apply get_result_allowed_no_usage; assumption.
  - intros Hf u s. apply restart_allowed_no_usage; assumption.
Qed.

Lemma finished_job_usable_witness :
  reachable any_use (Sample.steady FAILED) Sample.params
    (Sample.checked (Sample.steady FAILED))
  /\ _finish_time (self (Sample.checked (Sample.steady FAILED))) <> None
  /\ job_truthy (Sample.checked (Sample.steady FAILED)) = true.
Proof.
  assert (Hreach : reachable any_use (Sample.steady FAILED) Sample.params
                     (Sample.checked (Sample.steady FAILED))).
  { unfold Sample.checked, Sample.started. apply reach_op; [|exact I].
    apply reach_tick. apply reach_op; [|exact I]. apply reach_new. }
  assert (Hfin : _finish_time (self (Sample.checked (Sample.steady FAILED))) <> None)
    by (vm_compute; discriminate).
  split; [exact Hreach|]. split; [exact Hfin|].
  exact (proj1 (finished_job_usable _ _ _ Hreach Hfin)).
Defined.

(** ** Time along a run *)

Lemma expo_nonneg (k : nat) : 0 <= expo k.
Proof. unfold expo, factor. apply Z.mul_nonneg_nonneg; [lia|]. apply Z.pow_nonneg. lia. Qed.

Lemma waited_nonneg (k n : nat) : 0 <= waited k n.
Proof.
  revert k. induction n as [|n IH]; intros k; simpl; [lia|].
  pose proof (expo_nonneg k). specialize (IH (S k)). lia.
Qed.

Lemma after_failures_clock c n w : clock w <= clock (after_failures c 0 n w).
Proof. simpl. pose proof (waited_nonneg 0 n). lia. Qed.

Lemma forward_reachable (remote : Remote) (params : dict) (w : World) :
  forward remote params w -> reachable any_use remote params w.
Proof.
  induction 1 as [now | w o _ IH | w dt _ IH _].
  - apply reach_new.
  - apply reach_op; [exact IH | exact I].
  - apply reach_tick, IH.
Qed.

Lemma timeline_fields (w w' : World) :
  _start_time (self w') = _start_time (self w) ->
  _finish_time (self w') = _finish_time (self w) ->
  clock w <= clock w' ->
  timeline w -> timeline w'.
Proof.
  unfold timeline. intros -> -> Hc (H1 & H2 & H3). repeat split.
  - intros t0 Ht0. specialize (H1 t0 Ht0). lia.
  - intros tf Htf. specialize (H2 tf Htf). lia.
  - exact H3.
Qed.

Lemma timeline_after_check (w : World) :
  timeline w -> timeline (snd (_check_status w)).
Proof.
  intros Hw.
  destruct (check_status_cases w)
    as [[e ->] | (l & pct & st & who & _ & _ & _ & _ & ->)]; [exact Hw|].
  assert (Hfinished : forall w1,
             _start_time (self w1) = _start_time (self w) ->
             _finish_time (self w1) = Some (clock w) ->
             clock w1 = clock w -> timeline w1).
  { intros w1 Hs Hf Hc. destruct Hw as (H1 & _ & _).
    unfold timeline. rewrite Hs, Hf, Hc. repeat split.
    - exact H1.
    - intros tf [= <-]. lia.
    - intros t0 tf Ht0 [= <-]. apply H1, Ht0. }
  unfold ruled.
  destruct (py_eq_status st COMPLETED); [apply Hfinished; reflexivity|].
  destruct (py_in_statuses st [FAILED; SKIPPED]).
  - simpl. destruct (_start_time (self w)) eqn:E; apply Hfinished;
      simpl; rewrite ?E; reflexivity.
  - simpl. revert Hw. apply timeline_fields; simpl; (reflexivity || lia).
Qed.

Lemma completed_unfinished_time (w : World) :
  _finish_time (self w) = None ->
  (self (snd (completed w)) = self w /\ clock w <= clock (snd (completed w)))
  \/ exists l r w0,
       self w0 = self w /\ clock w <= clock w0
       /\ completed w = _check_status (rebound l r w0).
Proof.
  intros Hfin.
  assert (Hc : completed w
               = match _update_job w with
                 | (Ok _, w1) => _check_status w1
                 | (Raise e, w1) => (Raise e, w1)
                 end).
  { unfold completed. unfold bind at 1, get. rewrite Hfin. reflexivity. }
  rewrite Hc. clear Hc. destruct (job_truthy w) eqn:Ht.
  - destruct (job_truthy_Some w Ht) as [l Hl].
    destruct (update_job_started w l Ht Hl) as (n & _ & _ & Heq & _).
    rewrite Heq. cbv zeta.
    pose proof (after_failures_clock (CallApiGet l) n w) as Hclock.
    destruct (on_api_get (api w) (length (calls w) + n)) as [r|].
    + right. exists l, r, (called (CallApiGet l) (after_failures (CallApiGet l) 0 n w)).
      split; [reflexivity|]. split; [exact Hclock | reflexivity].
    + left. split; [reflexivity | exact Hclock].
  - left. rewrite (update_job_unstarted w Ht).
    destruct (usage_error UseNotStarted w) as [a|e] eqn:E.
    + destruct (usage_error_not_ok _ _ _ E).
    + simpl. split; [reflexivity | lia].
Qed.

Lemma start_timeline (w : World) :
  finished_holds_handle w -> timeline w -> timeline (perform Start w).
Proof.
  intros Hh Hw. simpl. destruct (job_truthy w) eqn:Ht.
  - rewrite start_started by assumption. exact Hw.
  - assert (Hfin : _finish_time (self w) = None).
    { destruct (_finish_time (self w)) eqn:E; [|reflexivity].
      assert (H : job_truthy w = true) by (apply Hh; rewrite E; discriminate).
      rewrite Ht in H. discriminate. }
    destruct (start_unstarted w Ht) as (n & _ & _ & Heq & _).
    rewrite Heq, start_body_unstarted
      by (rewrite <- Ht; apply job_truthy_frame; reflexivity).
    cbv zeta.
    pose proof (after_failures_clock (kickoff_call w) n w) as Hclock.
    destruct (on_get_insights _ _) as [d|];
      [|revert Hw; apply timeline_fields; (reflexivity || exact Hclock)].
    assert (Hnew : forall w1 t,
               _start_time (self w1) = Some t -> clock w1 = t ->
               _finish_time (self w1) = None -> timeline w1).
    { intros w1 t Hs Hc Hf. unfold timeline. rewrite Hs, Hc, Hf.
      repeat split; try discriminate. intros t0 [= <-]. lia. }
    destruct (d !! "report_run_id");
      [destruct (_params _ !! "time_range");
       [destruct (_params _ !! "breakdowns")|]|];
      (eapply Hnew; [reflexivity | reflexivity | exact Hfin]).
Qed.

Lemma perform_timeline (o : operation) (w : World) :
  finished_holds_handle w -> timeline w -> timeline (perform o w).
Proof.
  intros Hh Hw. destruct o.
  - apply start_timeline; assumption.
  - simpl. unfold restart. unfold bind at 1, get.
    destruct (negb (job_truthy w) || negb (failed w)).
    + rewrite raise_usage. exact Hw.
    + change ((do _ <- modify (with_self (set_job None));
               do _ <- modify (with_self (set_failed false));
               do _ <- modify (with_self (set_start_time None));
               do _ <- modify (with_self (set_finish_time None));
               do _ <- start;
               do s <- __str__;
               logger_info (LogRestarted s)) w)
        with ((do _ <- start; do s <- __str__; logger_info (LogRestarted s))
                (cleared w)).
      assert (Hc : timeline (cleared w)).
      { unfold timeline. simpl. repeat split; discriminate. }
      pose proof (start_timeline (cleared w)
                    (holds_unfinished (cleared w) eq_refl) Hc) as Hs.
      simpl in Hs. unfold bind.
      destruct (start (cleared w)) as [[[]|e] w1]; [|exact Hs].
      rewrite str_pure. destruct (str_of w1); [|exact Hs].
      simpl. revert Hs. apply timeline_fields; simpl; (reflexivity || lia).
  - simpl. destruct (_finish_time (self w)) as [t|] eqn:Hfin.
    { rewrite (completed_memoized w t Hfin). exact Hw. }
    destruct (completed_unfinished_time w Hfin)
      as [(Hs & Hc) | (l & r & w0 & Hs & Hc & ->)].
    + revert Hw. apply timeline_fields; (rewrite Hs; reflexivity) || exact Hc.
    + apply timeline_after_check.
      destruct (rebound_fields w0 l r) as (H1 & _ & H3 & _ & _ & _ & H7 & _).
      revert Hw. apply timeline_fields.
      * rewrite H3, Hs. reflexivity.
      * rewrite H1, Hs. reflexivity.
      * rewrite H7. exact Hc.
  - simpl. rewrite batch_update_request_pure. exact Hw.
  - simpl. destruct (_job (self w)) as [l|] eqn:Hl.
    + rewrite (process_batch_result_started w l response Hl). cbn [snd].
      apply timeline_after_check.
      revert Hw. apply timeline_fields; simpl; (reflexivity || lia).
    + rewrite (process_batch_result_unstarted w response Hl). exact Hw.
  - simpl.
    destruct (job_truthy w) eqn:Ht, (failed w) eqn:Hf;
      try (rewrite get_result_refused by auto; exact Hw).
    destruct (job_truthy_Some w Ht) as [l Hl].
    destruct (get_result_allowed w l Ht Hf Hl) as (n & _ & _ & Heq & _).
    rewrite Heq. cbv zeta.
    pose proof (after_failures_clock (CallGetResult l) n w) as Hclock.
    destruct (on_get_result (api w) (length (calls w) + n));
      revert Hw; apply timeline_fields; (reflexivity || exact Hclock).
Qed.

(** X16. As long as the clock never goes back, whatever the service
    answers and however the job is used, the start time and the finish
    time lie in the past with the start before the finish, and
    [elapsed_time] is never negative. *)
Theorem elapsed_time_nonnegative (remote : Remote) (params : dict) (w : World) :
  forward remote params w ->
  timeline w
  /\ forall e, fst (elapsed_time w) = Ok (Some e) -> 0 <= e.
Proof.
  intros Hf.
  assert (Ht : timeline w).
  { induction Hf as [now | w o Hf IH | w dt Hf IH Hdt].
    - unfold timeline. simpl. repeat split; discriminate.
    - apply perform_timeline; [|exact IH].
      apply (reachable_holds remote params), forward_reachable, Hf.
    - revert IH. apply timeline_fields; simpl; (reflexivity || lia). }
  split; [exact Ht|].
  destruct Ht as (H1 & _ & H3). intros e.
  unfold elapsed_time, bind, get, ret, pendulum_now.
  destruct (_start_time (self w)) as [t0|]; [|discriminate].
  destruct (_finish_time (self w)) as [tf|]; simpl; intros [= <-].
  - specialize (H3 t0 tf eq_refl eq_refl). lia.
  - specialize (H1 t0 eq_refl). lia.
Qed.

Lemma elapsed_time_nonnegative_witness :
  forward (Sample.steady COMPLETED) Sample.params Sample.finished_at_60
  /\ fst (elapsed_time Sample.finished_at_60) = Ok (Some 50)
  /\ 0 <= 50.
Proof.
  assert (Hf : forward (Sample.steady COMPLETED) Sample.params
                 Sample.finished_at_60).
  { unfold Sample.finished_at_60.
    apply forward_tick; [|lia]. apply forward_op.
    apply forward_tick; [|lia]. apply forward_op. apply forward_new. }
  assert (He : fst (elapsed_time Sample.finished_at_60) = Ok (Some 50))
    by (vm_compute; reflexivity).
  split; [exact Hf|]. split; [exact He|].
  exact (proj2 (elapsed_time_nonnegative _ _ _ Hf) 50 He).
Defined.
